(** * Event dispatch core of the agent: a shallow embedding

    The development follows [cattle/agent/event.py] (liveness monitor,
    worker loop, stream reader and dispatcher) and [cattle/progress.py]
    (progress replies).  Python values are embedded as follows:

    - [str] is [string]; [strip] and the [in] operator are written out;
    - [int] is [Z];
    - a JSON object (the replies handed to the publisher) is a
      [gmap string json], item assignment is map insertion;
    - a queue is the list of its pending lines, oldest first;
    - exceptions, the module global [_STAMP_TS], the local variables of the
      loops and the calls to loggers, publisher and process handles are
      threaded through a state-and-exception monad [M];
    - the reader and the workers act on one state, one loop turn at a time;
      what the workers take from the queues between two lines of the stream
      is part of the reader's input.

    The clock readings of the worker and the body of the subscribe request
    ([_data], [_get_event_suffix]) are left out. *)

From Stdlib Require Import ZArith String Ascii Bool Lia DecimalString.
From stdpp Require Import gmap strings list.

Set Warnings "-register-all".
Set Default Proof Using "Type".
Local Open Scope Z_scope.

(** ** Python strings *)

Module PyStr.

(** The characters removed by [str.strip()] without argument:
    tab, line feed, vertical tab, form feed, carriage return, space. *)
Definition is_space : ascii -> bool := Ascii.is_space.

Fixpoint lstrip (s : string) : string :=
  match s with
  | EmptyString => EmptyString
  | String c s' => if is_space c then lstrip s' else s
  end.

Definition is_empty (s : string) : bool :=
  match s with EmptyString => true | String _ _ => false end.

Fixpoint rstrip (s : string) : string :=
  match s with
  | EmptyString => EmptyString
  | String c s' =>
      let r := rstrip s' in
      if is_space c && is_empty r then EmptyString else String c r
  end.

Definition strip (s : string) : string := rstrip (lstrip s).

(** [needle in s] *)
Fixpoint contains (needle s : string) : bool :=
  String.prefix needle s ||
  match s with
  | EmptyString => false
  | String _ s' => contains needle s'
  end.

(** [len(s)] *)
Definition len (s : string) : Z := Z.of_nat (String.length s).

(** The last character of a non-empty needle is not white space. *)
Fixpoint ends_solid (n : string) : bool :=
  match n with
  | EmptyString => false
  | String c EmptyString => negb (is_space c)
  | String _ n' => ends_solid n'
  end.

Definition starts_solid (n : string) : bool :=
  match n with
  | EmptyString => false
  | String c _ => negb (is_space c)
  end.

(** Rendering of an integer by [str.format] and [%s]. *)
Definition of_Z (z : Z) : string := NilZero.string_of_int (Z.to_int z).
Definition of_nat (n : nat) : string := of_Z (Z.of_nat n).

End PyStr.

(** ** JSON values and dictionaries *)

Inductive json : Type :=
| JNull
| JStr (s : string)
| JNum (z : Z)
| JList (items : list json)
| JObj (fields : gmap string json).

(** ** Exceptions *)

Inductive exn : Type :=
| Empty                        (* cattle.concurrency.Empty *)
| Full                         (* cattle.concurrency.Full *)
| FailedToLock (msg : string)  (* cattle.lock.FailedToLock *)
| Error (msg : string)         (* any other subclass of Exception *)
| SystemExit (code : Z).       (* raised by sys.exit; not an Exception *)

(** [str(e)] *)
Definition exn_str (e : exn) : string :=
  match e with
  | Empty | Full => EmptyString
  | FailedToLock m | Error m => m
  | SystemExit c => PyStr.of_Z c
  end.

(** ** Requests, log records and the machine state *)

Record Request := { req_id : string; req_name : string; req_data : json }.

Inductive level := INFO | ERROR | EXCEPTION.

Inductive event : Type :=
| Log (lvl : level) (msg : string)                 (* log.info / error / exception *)
| LogRequest (r : Request) (msg : string)          (* utils.log_request *)
| Publish (resp : gmap string json) (raised : option exn)  (* publisher.publish(resp) *)
| Spawn (worker_name : string)                     (* spawn(target=_worker, ...) *)
| Terminate (worker_name : string).                (* child.terminate() *)

Inductive qkind := DataQ | PingQ.

Record state := {
  queue      : list string;       (* self._queue *)
  ping_queue : list string;       (* self._ping_queue *)
  children   : list string;       (* self._children, by worker name *)
  drop_count : Z;                 (* local of EventClient._run *)
  ping_drop  : Z;                 (* local of EventClient._run *)
  _STAMP_TS   : option Z;          (* module global _STAMP_TS *)
  req        : option Request;    (* local of _worker_main *)
  uuid_count : nat;               (* identifiers drawn from uuid.uuid4 so far *)
  trace      : list event         (* calls made to the outside, oldest first *)
}.

Definition set_queue (v : list string) (s : state) : state :=
  {| queue := v; ping_queue := ping_queue s; children := children s;
     drop_count := drop_count s; ping_drop := ping_drop s; _STAMP_TS := _STAMP_TS s;
     req := req s; uuid_count := uuid_count s; trace := trace s |}.

Definition set_ping_queue (v : list string) (s : state) : state :=
  {| queue := queue s; ping_queue := v; children := children s;
     drop_count := drop_count s; ping_drop := ping_drop s; _STAMP_TS := _STAMP_TS s;
     req := req s; uuid_count := uuid_count s; trace := trace s |}.

Definition set_children (v : list string) (s : state) : state :=
  {| queue := queue s; ping_queue := ping_queue s; children := v;
     drop_count := drop_count s; ping_drop := ping_drop s; _STAMP_TS := _STAMP_TS s;
     req := req s; uuid_count := uuid_count s; trace := trace s |}.

Definition set_drop_count (v : Z) (s : state) : state :=
  {| queue := queue s; ping_queue := ping_queue s; children := children s;
     drop_count := v; ping_drop := ping_drop s; _STAMP_TS := _STAMP_TS s;
     req := req s; uuid_count := uuid_count s; trace := trace s |}.

Definition set_ping_drop (v : Z) (s : state) : state :=
  {| queue := queue s; ping_queue := ping_queue s; children := children s;
     drop_count := drop_count s; ping_drop := v; _STAMP_TS := _STAMP_TS s;
     req := req s; uuid_count := uuid_count s; trace := trace s |}.

Definition set_STAMP_TS (v : option Z) (s : state) : state :=
  {| queue := queue s; ping_queue := ping_queue s; children := children s;
     drop_count := drop_count s; ping_drop := ping_drop s; _STAMP_TS := v;
     req := req s; uuid_count := uuid_count s; trace := trace s |}.

Definition set_req (v : option Request) (s : state) : state :=
  {| queue := queue s; ping_queue := ping_queue s; children := children s;
     drop_count := drop_count s; ping_drop := ping_drop s; _STAMP_TS := _STAMP_TS s;
     req := v; uuid_count := uuid_count s; trace := trace s |}.

Definition set_uuid_count (v : nat) (s : state) : state :=
  {| queue := queue s; ping_queue := ping_queue s; children := children s;
     drop_count := drop_count s; ping_drop := ping_drop s; _STAMP_TS := _STAMP_TS s;
     req := req s; uuid_count := v; trace := trace s |}.

Definition emit (e : event) (s : state) : state :=
  {| queue := queue s; ping_queue := ping_queue s; children := children s;
     drop_count := drop_count s; ping_drop := ping_drop s; _STAMP_TS := _STAMP_TS s;
     req := req s; uuid_count := uuid_count s; trace := trace s ++ [e] |}.

(** The state of a process that has just built its [EventClient]:
    empty queues, no children, [_STAMP_TS = None]. *)
Definition boot : state :=
  {| queue := []; ping_queue := []; children := [];
     drop_count := 0; ping_drop := 0; _STAMP_TS := None;
     req := None; uuid_count := O; trace := [] |}.

(** ** The monad: state passing with Python exceptions *)

Definition M (A : Type) : Type := state -> (exn + A) * state.

Definition ret {A} (a : A) : M A := fun s => (inr a, s).

Definition raise {A} (e : exn) : M A := fun s => (inl e, s).

Definition bind {A B} (m : M A) (k : A -> M B) : M B :=
  fun s =>
    match m s with
    | (inl e, s') => (inl e, s')
    | (inr a, s') => k a s'
    end.

Declare Scope py_scope.
Delimit Scope py_scope with py.
Notation "x <- m ;; k" := (bind m (fun x => k))
  (at level 100, m at next level, right associativity) : py_scope.
Notation "m ;; k" := (bind m (fun _ => k))
  (at level 100, right associativity) : py_scope.
Local Open Scope py_scope.

Definition get : M state := fun s => (inr s, s).

Definition modify (f : state -> state) : M unit := fun s => (inr tt, f s).

(** a call whose outcome is given by the environment *)
Definition lift {A} (r : exn + A) : M A :=
  match r with inl e => raise e | inr a => ret a end.

(** [try: m  except <any> as e: h e] ; the handler re-raises what it does
    not catch. *)
Definition try_except {A} (m : M A) (h : exn -> M A) : M A :=
  fun s =>
    match m s with
    | (inl e, s') => h e s'
    | (inr a, s') => (inr a, s')
    end.

(** [try: m  finally: f] *)
Definition try_finally {A} (m : M A) (f : M unit) : M A :=
  fun s =>
    match m s with
    | (r, s') =>
        match f s' with
        | (inl e, s'') => (inl e, s'')
        | (inr _, s'') => (r, s'')
        end
    end.

Fixpoint for_each {A} (l : list A) (body : A -> M unit) : M unit :=
  match l with
  | [] => ret tt
  | x :: l' => body x ;; for_each l' body
  end.

Fixpoint mapM {A B} (f : A -> M B) (l : list A) : M (list B) :=
  match l with
  | [] => ret []
  | x :: l' => b <- f x ;; bs <- mapM f l' ;; ret (b :: bs)
  end.

Definition log (lvl : level) (msg : string) : M unit := modify (emit (Log lvl msg)).

Definition log_request (r : Request) (msg : string) : M unit :=
  modify (emit (LogRequest r msg)).

(** ** Configuration and the file system *)

(** The values read from [cattle.Config]. *)
Record Config := {
  stamp                : string;  (* Config.stamp() *)
  queue_depth          : nat;     (* Config.queue_depth() *)
  max_dropped_requests : Z;       (* Config.max_dropped_requests() *)
  max_dropped_ping     : Z        (* Config.max_dropped_ping() *)
}.

(** What [os.path] answers at one moment. Modification times are compared
    by equality only, so a time stamp is an integer. *)
Record fsview := {
  path_exists : string -> bool;   (* os.path.exists *)
  getmtime    : string -> Z       (* os.path.getmtime *)
}.

(** ** Liveness monitor *)

Definition _check_ts (c : Config) (v : fsview) : M bool :=
  let stamp_file := stamp c in
  if negb (path_exists v stamp_file) then ret true
  else
    let ts := getmtime v stamp_file in
    s <- get ;;
    (match _STAMP_TS s with
     | None => modify (set_STAMP_TS (Some ts))
     | Some _ => ret tt
     end) ;;
    s <- get ;;
    ret (bool_decide (_STAMP_TS s = Some ts)).

Definition _should_run (c : Config) (v : fsview) (pid : option string) : M bool :=
  ok <- _check_ts c v ;;
  if negb ok then ret false
  else
    match pid with
    | None => ret true
    | Some p => ret (path_exists v ("/proc/" +:+ p))
    end.

(** The marker file as one view shows it, and what a check answers once
    [t0] is cached. *)
Definition marker_present (c : Config) (v : fsview) : bool := path_exists v (stamp c).

Definition marker_time (c : Config) (v : fsview) : Z := getmtime v (stamp c).

Definition same_generation (c : Config) (t0 : Z) (v : fsview) : bool :=
  negb (marker_present c v) || bool_decide (marker_time c v = t0).

Definition parent_present (pid : option string) (v : fsview) : bool :=
  match pid with
  | None => true
  | Some p => path_exists v ("/proc/" +:+ p)
  end.

(** The answer of [_should_run] and the cache it leaves, as functions of the
    cache it finds. *)
Definition alive_now (c : Config) (v : fsview) (pid : option string)
    (cache : option Z) : bool :=
  match cache with
  | None => true
  | Some t0 => same_generation c t0 v
  end && parent_present pid v.

Definition capture (c : Config) (v : fsview) (cache : option Z) : option Z :=
  match cache with
  | None => if marker_present c v then Some (marker_time c v) else None
  | Some t0 => Some t0
  end.

Arguments _check_ts : simpl never.
Arguments _should_run : simpl never.

(** ** Bounded dispatch queues *)

Definition queue_of (q : qkind) (s : state) : list string :=
  match q with DataQ => queue s | PingQ => ping_queue s end.

Definition set_queue_of (q : qkind) (v : list string) (s : state) : state :=
  match q with DataQ => set_queue v s | PingQ => set_ping_queue v s end.

(** Modelled from the spec: [cattle.concurrency.Queue] is not among the
    sources.  "tryEnqueue(item): non-blocking; fails with QueueFull if at
    capacity"; both queues are built with the same depth. *)
Definition queue_put (c : Config) (q : qkind) (line : string) : M unit :=
  fun s =>
    if bool_decide (queue_depth c <= length (queue_of q s))%nat
    then (inl Full, s)
    else (inr tt, set_queue_of q (queue_of q s ++ [line]) s).

(** Modelled from the spec: [cattle.concurrency.Queue] is not among the
    sources.  "dequeue(timeout): blocks the calling Worker up to timeout for
    an item; returns Empty on timeout"; an item that arrives while the
    worker waits is an item that was put before this step. *)
Definition queue_get (q : qkind) : M string :=
  fun s =>
    match queue_of q s with
    | [] => (inl Empty, s)
    | line :: rest => (inr line, set_queue_of q rest s)
    end.

(** ** Worker *)

(** What a worker calls during one turn of its loop.  [cattle/utils.py],
    the marshaller, the agent and the publisher are not among the sources;
    their results are parameters.  [event.py] tests the result of
    [utils.reply] against [None], hence the optional result. *)
Record collaborators := {
  from_string : string -> exn + Request;                 (* marshaller.from_string *)
  execute     : Request -> exn + option (gmap string json);  (* agent.execute *)
  publish     : gmap string json -> option exn;          (* publisher.publish *)
  reply       : Request -> json -> option (gmap string json);  (* utils.reply *)
  uuid4       : nat -> string;                           (* the n-th uuid.uuid4() *)
  view        : fsview                                   (* the file system now *)
}.


Inductive ctl := Continue | Break.

(** [resp["transitioning"] = "error"] followed by
    [resp["transitioningInternalMessage"] = msg] *)
Definition set_error (resp : gmap string json) (msg : string) : gmap string json :=
  <["transitioningInternalMessage" := JStr msg]> (<["transitioning" := JStr "error"]> resp).

(** [resp['transitioning'] = 'yes'] followed by the assignments of
    [transitioningMessage] and [transitioningProgress] *)
Definition set_progress (resp : gmap string json) (msg progress : json)
    : gmap string json :=
  <["transitioningProgress" := progress]>
    (<["transitioningMessage" := msg]> (<["transitioning" := JStr "yes"]> resp)).

(** The faults that reach [except Exception] in the worker. *)
Definition unknown (e : exn) : bool :=
  match e with
  | Full | Error _ => true
  | Empty | FailedToLock _ | SystemExit _ => false
  end.

Definition publisher_publish (E : collaborators) (resp : gmap string json) : M unit :=
  modify (emit (Publish resp (publish E resp))) ;;
  match publish E resp with
  | None => ret tt
  | Some e => raise e
  end.

Definition fresh_uuid (E : collaborators) : M string :=
  s <- get ;;
  modify (set_uuid_count (S (uuid_count s))) ;;
  ret (uuid4 E (uuid_count s)).

(** Lines 79 to 98: the body of the [try]. *)
Definition _worker_try (E : collaborators) (worker_name : string) (q : qkind) : M unit :=
  modify (set_req None) ;;
  line <- queue_get q ;;
  r <- lift (from_string E line) ;;
  modify (set_req (Some r)) ;;
  log_request r ("Request: " +:+ line) ;;
  let id := req_id r in
  try_finally
    (log_request r (worker_name +:+ " : Starting request " +:+ id +:+ " for " +:+ req_name r) ;;
     resp <- lift (execute E r) ;;
     match resp with
     | Some resp => publisher_publish E resp
     | None => ret tt
     end)
    (log_request r (worker_name +:+ " : Done request " +:+ id +:+ " for " +:+ req_name r)).

Definition poll (c : Config) (E : collaborators) (ppid : option string) : M ctl :=
  alive <- _should_run c (view E) ppid ;;
  ret (if alive then Continue else Break).

(** Lines 99 to 119: the three [except] clauses. *)
Definition _worker_except (c : Config) (E : collaborators) (ppid : option string)
    (e : exn) : M ctl :=
  match e with
  | Empty => poll c E ppid
  | FailedToLock _ =>
      s <- get ;;
      match req s with
      | Some r =>
          log INFO (exn_str e +:+ " for " +:+ req_name r) ;;
          poll c E ppid
      | None => raise (Error "'NoneType' object has no attribute 'name'")
      end
  | Full | Error _ =>
      error_id <- fresh_uuid E ;;
      log EXCEPTION (error_id +:+ " : Unknown error") ;;
      alive <- _should_run c (view E) ppid ;;
      if negb alive then ret Break
      else
        s <- get ;;
        match req s with
        | Some r =>
            let msg := error_id +:+ " : " +:+ exn_str e in
            match reply E r JNull with
            | Some resp =>
                publisher_publish E (set_error resp msg) ;;
                ret Continue
            | None => ret Continue
            end
        | None => ret Continue
        end
  | SystemExit _ => raise e
  end.

(** One turn of [while True]. *)
Definition _worker_turn (c : Config) (E : collaborators) (worker_name : string)
    (q : qkind) (ppid : option string) : M ctl :=
  try_except (_worker_try E worker_name q ;; ret Continue) (_worker_except c E ppid).

Inductive worker_status := Running | Exited.

(** [_worker_main], one element of the schedule for each turn of the loop:
    [Running] when the schedule ends with the loop still going. *)
Fixpoint _worker_main (c : Config) (worker_name : string) (q : qkind)
    (ppid : option string) (sched : list collaborators) : M worker_status :=
  match sched with
  | [] => ret Running
  | E :: sched' =>
      r <- _worker_turn c E worker_name q ppid ;;
      match r with
      | Break => ret Exited
      | Continue => _worker_main c worker_name q ppid sched'
      end
  end.

(** [_worker]: the record of the [finally] clause is written when
    [_worker_main] is left, by [break] or by an exception, not while its
    loop is still going. *)
Definition _worker (c : Config) (worker_name : string) (q : qkind)
    (ppid : option string) (sched : list collaborators) : M worker_status :=
  fun s =>
    match _worker_main c worker_name q ppid sched s with
    | (inr Running, s') => (inr Running, s')
    | (r, s') => (r, emit (Log ERROR (worker_name +:+ " : Exiting")) s')
    end.

(** The state in which [agent.execute(req)] is called, and the record
    written by the [finally] clause. *)
Definition started (worker_name : string) (q : qkind) (s : state) (line : string)
    (rest : list string) (r : Request) : state :=
  emit (LogRequest r (worker_name +:+ " : Starting request " +:+ req_id r
                      +:+ " for " +:+ req_name r))
    (emit (LogRequest r ("Request: " +:+ line))
       (set_req (Some r) (set_queue_of q rest (set_req None s)))).

Definition finished (worker_name : string) (r : Request) : event :=
  LogRequest r (worker_name +:+ " : Done request " +:+ req_id r
                +:+ " for " +:+ req_name r).

(** ** Event stream reader and dispatcher *)

(** The heartbeat marker: a double quote followed by [ping]. *)
Definition PING : string := String "034"%char "ping".

(** One line of the response body, with what happened around it: how many
    items the workers took from each queue since the previous line, and the
    file system at the liveness check that follows the line. *)
Record tick := {
  raw        : string;
  taken      : nat;
  ping_taken : nat;
  tick_view  : fsview
}.

(** The answer to [requests.post]: [broken] is the exception with which
    the line iterator stops, if it does not simply run out of lines. *)
Record http_response := {
  status_code : Z;
  text        : string;
  iter_lines  : list tick;
  broken      : option exn
}.

(** [self._auth] *)
Inductive auth := NoAuth | Token (t : string) | Credentials.

(** The process handles returned by [spawn]. *)
Record handles := {
  has_terminate : string -> bool;       (* hasattr(child, "terminate") *)
  terminate     : string -> option exn  (* what child.terminate() raises *)
}.

Definition workers_take (t : tick) (s : state) : state :=
  set_ping_queue (drop (ping_taken t) (ping_queue s))
    (set_queue (drop (taken t) (queue s)) s).

(** Lines 188 to 198: the [except Full] clause. *)
Definition _run_full (c : Config) (line : string) (ping : bool) : M ctl :=
  log INFO ("Dropping request " +:+ line) ;;
  modify (fun s => set_drop_count (drop_count s + 1) s) ;;
  max <- (if ping
          then modify (fun s => set_ping_drop (ping_drop s + 1) s) ;;
               ret (max_dropped_ping c)
          else ret (max_dropped_requests c)) ;;
  s <- get ;;
  if bool_decide (max < drop_count s)
  then log ERROR ("Max dropped requests [" +:+ PyStr.of_Z max +:+ "] exceeded") ;;
       ret Break
  else ret Continue.

(** Lines 178 to 203: the body of the [for] loop. *)
Definition _run_line (c : Config) (ppid : option string) (t : tick) : M ctl :=
  modify (workers_take t) ;;
  let line := PyStr.strip (raw t) in
  let ping := PyStr.contains PING line in
  r <- try_except
         ((if bool_decide (0 < PyStr.len line)
           then if ping
                then queue_put c PingQ line ;; modify (set_ping_drop 0)
                else queue_put c DataQ line
           else ret tt) ;;
          ret Continue)
         (fun e => match e with
                   | Full => _run_full c line ping
                   | _ => raise e
                   end) ;;
  match r with
  | Break => ret Break
  | Continue =>
      alive <- _should_run c (tick_view t) ppid ;;
      if alive then ret Continue
      else log INFO "Parent process has died or stamp changed, exiting" ;;
           ret Break
  end.

Fixpoint _run_loop (c : Config) (ppid : option string) (lines : list tick)
    (stop : option exn) : M unit :=
  match lines with
  | [] => match stop with Some e => raise e | None => ret tt end
  | t :: lines' =>
      r <- _run_line c ppid t ;;
      match r with
      | Break => ret tt
      | Continue => _run_loop c ppid lines' stop
      end
  end.

Definition spawn (worker_name : string) : M unit :=
  modify (fun s => emit (Spawn worker_name) (set_children (children s ++ [worker_name]) s)).

Definition _start_children (workers : nat) : M unit :=
  for_each (seq 0 workers) (fun i => spawn ("worker" +:+ PyStr.of_nat i)) ;;
  spawn "ping".

(** Lines 205 to 210: the [finally] clause. *)
Definition terminate_children (h : handles) : M unit :=
  s <- get ;;
  for_each (children s)
    (fun child =>
       if has_terminate h child
       then try_except
              (modify (emit (Terminate child)) ;;
               match terminate h child with Some e => raise e | None => ret tt end)
              (fun _ => ret tt)
       else ret tt).

(** [EventClient._run]; [post] is the outcome of [requests.post]. *)
Definition _run (c : Config) (h : handles) (a : auth) (workers : nat)
    (ppid : option string) (post : exn + http_response) : M unit :=
  (match a with
   | Token _ => raise (Error "KeyError")   (* headers["Authorization", self._auth] *)
   | _ => ret tt
   end) ;;
  try_finally
    (modify (set_drop_count 0) ;;
     modify (set_ping_drop 0) ;;
     r <- lift post ;;
     if bool_decide (status_code r <> 201)
     then raise (Error (PyStr.of_Z (status_code r) +:+ " : " +:+ text r))
     else
       _start_children workers ;;
       _run_loop c ppid (iter_lines r) (broken r))
    (terminate_children h) ;;
  raise (SystemExit 0).

(** [EventClient.run] *)
Definition run (c : Config) (h : handles) (a : auth) (workers : nat)
    (ppid : option string) (now : fsview) (post : exn + http_response) : M unit :=
  _check_ts c now ;;
  _run c h a workers ppid post.

(** ** Progress replies *)

(** [resp['transitioning'] = 'yes'] and the two assignments after it. *)
Definition mark_progress (resp : option (gmap string json)) (msg progress : json)
    : M (gmap string json) :=
  match resp with
  | None => raise (Error "'NoneType' object does not support item assignment")
  | Some d => ret (set_progress d msg progress)
  end.

(** [EventProgress.update] *)
Definition update (E : collaborators) (self_req : Request) (self_parent : option Request)
    (msg progress data : json) : M unit :=
  resp <- mark_progress (reply E self_req data) msg progress ;;
  resp <- (match self_parent with
           | Some parent => mark_progress (reply E parent (JObj resp)) msg progress
           | None => ret resp
           end) ;;
  try_except (publisher_publish E resp) (fun _ => ret tt).

(** The publisher calls recorded in a trace. *)
Definition published (tr : list event) : list (gmap string json) :=
  omap (fun e => match e with Publish r _ => Some r | _ => None end) tr.

(** ** The loop body of the reader, case by case *)

(** The liveness check that closes the loop body. *)
Definition line_end (c : Config) (ppid : option string) (t : tick) (s : state)
    : (exn + ctl) * state :=
  let s' := set_STAMP_TS (capture c (tick_view t) (_STAMP_TS s)) s in
  if alive_now c (tick_view t) ppid (_STAMP_TS s)
  then (inr Continue, s')
  else (inr Break, emit (Log INFO "Parent process has died or stamp changed, exiting") s').

(** The state left by the first lines of the [except Full] clause. *)
Definition dropped (line : string) (ping : bool) (s : state) : state :=
  let s1 := set_drop_count (drop_count s + 1)
              (emit (Log INFO ("Dropping request " +:+ line)) s) in
  if ping then set_ping_drop (ping_drop s + 1) s1 else s1.

(** The value of the local [max] in the [except Full] clause. *)
Definition drop_limit (c : Config) (ping : bool) : Z :=
  if ping then max_dropped_ping c else max_dropped_requests c.

(** What the items of the two queues look like. *)
Definition heartbeat (l : string) : Prop := PyStr.contains PING l = true.

Definition data_item (l : string) : Prop :=
  PyStr.contains PING l = false /\ l <> EmptyString.

(** ** Concrete scenarios *)

Module Scenario.

Definition cfg : Config :=
  {| stamp := "/var/lib/cattle/.stamp"; queue_depth := 1;
     max_dropped_requests := 10; max_dropped_ping := 2 |}.

(** every path exists, the marker was last modified at [t] *)
Definition stamped (t : Z) : fsview :=
  {| path_exists := fun _ => true; getmtime := fun _ => t |}.

(** every path exists but the marker *)
Definition unstamped : fsview :=
  {| path_exists := fun p => negb (String.eqb p (stamp cfg)); getmtime := fun _ => 0 |}.

Definition dq : string := String "034"%char EmptyString.

(** the line [{"name":"ping"}] *)
Definition ping_line : string :=
  "{" +:+ dq +:+ "name" +:+ dq +:+ ":" +:+ PING +:+ dq +:+ "}".

(** a line that arrives while no worker takes anything and the marker is
    unchanged *)
Definition arrives (l : string) : tick :=
  {| raw := l; taken := 0; ping_taken := 0; tick_view := stamped 10 |}.

(** four data lines, then two heartbeats, then one more data line *)
Definition congested : list tick :=
  map arrives ["a"; "b"; "c"; "d"; ping_line; ping_line; "e"].

(** process handles that accept [terminate] *)
Definition processes : handles :=
  {| has_terminate := fun _ => true; terminate := fun _ => None |}.

Definition answer (status : Z) (body : string) : http_response :=
  {| status_code := status; text := body; iter_lines := congested; broken := None |}.

Definition activate : Request :=
  {| req_id := "1f2e"; req_name := "compute.instance.activate"; req_data := JNull |}.

(** The marshaller decodes every line to [activate]; [reply] answers with an
    object that names the request it replies to; identifiers are numbered. *)
Definition helpers (run : exn + option (gmap string json))
    (send : gmap string json -> option exn)
    (answer_to : Request -> json -> option (gmap string json)) : collaborators :=
  {| from_string := fun _ => inr activate;
     execute := fun _ => run;
     publish := send;
     reply := answer_to;
     uuid4 := fun n => "uuid-" +:+ PyStr.of_nat n;
     view := stamped 10 |}.

Definition reply_to (r : Request) (data : json) : option (gmap string json) :=
  Some (<["previousIds" := JList [JStr (req_id r)]]> (<["data" := data]> ∅)).

Definition done : gmap string json := <["id" := JStr "9a7c"]> ∅.

(** the executor succeeds, the publisher is unreachable *)
Definition publisher_down : collaborators :=
  helpers (inr (Some done)) (fun _ => Some (Error "connection refused")) reply_to.

(** the executor fails, [utils.reply] has no reply for the request *)
Definition no_reply : collaborators :=
  helpers (inl (Error "boom")) (fun _ => None) (fun _ _ => None).

(** the executor fails, everything else works *)
Definition executor_fails : collaborators :=
  helpers (inl (Error "boom")) (fun _ => None) reply_to.

(** the executor finds the resource locked *)
Definition locked : collaborators :=
  helpers (inl (FailedToLock "Failed to lock instance.1")) (fun _ => None) reply_to.

(** one line waits in the data queue *)
Definition pending : state := set_queue ["{}"] boot.

(** queues of depth four, no dropped line tolerated *)
Definition strict : Config :=
  {| stamp := "/var/lib/cattle/.stamp"; queue_depth := 4;
     max_dropped_requests := 0; max_dropped_ping := 0 |}.

(** a stream that delivers two lines and then fails *)
Definition cut_off : http_response :=
  {| status_code := 201; text := "Created";
     iter_lines := map arrives ["a"; ping_line];
     broken := Some (Error "Connection broken: IncompleteRead") |}.

End Scenario.

From Stdlib Require Import DecimalZ.

(** ** Subscription body: [_get_event_suffix] and [_data] *)

(** a character matched by [[a-z]] *)
Definition is_lower (c : ascii) : bool :=
  (97 <=? nat_of_ascii c)%nat && (nat_of_ascii c <=? 122)%nat.

Arguments is_lower : simpl never.

(** [re.split('[a-z]+', s)]: the pieces of [s] between its maximal runs of
    lower-case letters.  [in_run] tells that the characters read last were
    lower-case letters, so that the piece in progress is still empty. *)
Fixpoint re_split_lower (in_run : bool) (s : string) : list string :=
  match s with
  | EmptyString => [EmptyString]
  | String ch s' =>
      if is_lower ch
      then if in_run then re_split_lower true s'
           else EmptyString :: re_split_lower true s'
      else match re_split_lower false s' with
           | piece :: pieces => String ch piece :: pieces
           | [] => [String ch EmptyString]
           end
  end.

Definition re_split (s : string) : list string := re_split_lower false s.

Definition _get_event_suffix (agent_id : string) : string :=
  let parts := re_split agent_id in
  if bool_decide (1 < length parts)%nat
  then ";agent=" +:+ default EmptyString (parts !! 1%nat)
  else ";agent=" +:+ agent_id.

(** [_data]; [dumps] is [json.dumps]. *)
Definition _data (dumps : gmap string json -> string) (events : list string)
    (agent_id : option string) : string :=
  let event : gmap string json := ∅ in
  let event :=
    match agent_id with
    | Some a =>
        let event := <["agentId" := JStr a]> event in
        let suffix := _get_event_suffix a in
        <["eventNames" := JList (map (fun x => JStr (x +:+ suffix)) events)]> event
    | None => <["eventNames" := JList (map JStr events)]> event
    end in
  dumps event.

(** no character of the string is a lower-case letter *)
Fixpoint lower_free (s : string) : bool :=
  match s with
  | EmptyString => true
  | String ch s' => negb (is_lower ch) && lower_free s'
  end.

(** every character of the string is a lower-case letter *)
Fixpoint all_lower (s : string) : bool :=
  match s with
  | EmptyString => true
  | String ch s' => is_lower ch && all_lower s'
  end.

(** ** [EventClient.__init__] *)

(** [s[0:n]] and [s[n:]] for [0 <= n] *)
Fixpoint str_take (n : nat) (s : string) : string :=
  match n, s with
  | S n', String ch s' => String ch (str_take n' s')
  | _, _ => EmptyString
  end.

Fixpoint str_drop (n : nat) (s : string) : string :=
  match n, s with
  | S n', String _ s' => str_drop n' s'
  | _, _ => s
  end.

(** [s.endswith(suffix)] *)
Definition endswith (s suffix : string) : bool :=
  bool_decide (String.length suffix <= String.length s)%nat
  && String.eqb (str_drop (String.length s - String.length suffix) s) suffix.

(** The fields set by the constructor; [publisher_url] is the address given
    to the [Publisher] it registers.  The two queues and the empty list of
    children are those of [boot]. *)
Record EventClient := {
  _url          : string;
  _auth         : auth;
  _workers      : Z;
  _agent_id     : option string;
  publisher_url : string
}.

Definition __init__ (url : string) (a : auth) (workers : Z)
    (agent_id : option string) : EventClient :=
  let url := if endswith url "/schemas"
             then str_take (String.length url - String.length "/schemas") url
             else url in
  {| _url := url +:+ "/subscribe"; _auth := a; _workers := workers;
     _agent_id := agent_id; publisher_url := url +:+ "/publish" |}.

(** ** Vocabulary of the further properties *)

(** every character of the string is white space *)
Fixpoint all_space (s : string) : bool :=
  match s with
  | EmptyString => true
  | String ch s' => PyStr.is_space ch && all_space s'
  end.

(** the spawn and terminate calls of a trace, in order *)
Definition lifecycle (tr : list event) : list event :=
  List.filter (fun e => match e with Spawn _ | Terminate _ => true | _ => false end) tr.

(** the names given to the children by [_start_children] *)
Definition child_names (workers : nat) : list string :=
  map (fun i => "worker" +:+ PyStr.of_nat i) (seq 0 workers) ++ ["ping"].

(** the largest number of dropped lines a run tolerates *)
Definition drop_bound (c : Config) : Z :=
  Z.max 0 (Z.max (max_dropped_requests c) (max_dropped_ping c)).

(** A turn of the worker cannot raise out of the loop: the publisher accepts
    everything, the marshaller and the agent raise neither [SystemExit] nor,
    for the marshaller, [FailedToLock]. *)
Definition contained (E : collaborators) : Prop :=
  (forall resp, publish E resp = None)
  /\ (forall line e, from_string E line = inl e ->
        match e with FailedToLock _ | SystemExit _ => False | _ => True end)
  /\ (forall r e, execute E r = inl e ->
        match e with SystemExit _ => False | _ => True end).

(** what a piece of code may change: nothing but the trace *)
Definition only_emits (s s' : state) (evs : list event) : Prop :=
  s' = {| queue := queue s; ping_queue := ping_queue s; children := children s;
          drop_count := drop_count s; ping_drop := ping_drop s;
          _STAMP_TS := _STAMP_TS s; req := req s; uuid_count := uuid_count s;
          trace := trace s ++ evs |}.

(** Lines 169 to 203: the body of the [try] of [EventClient._run]. *)
Definition _run_try (c : Config) (workers : nat) (ppid : option string)
    (post : exn + http_response) : M unit :=
  modify (set_drop_count 0) ;;
  modify (set_ping_drop 0) ;;
  r <- lift post ;;
  if bool_decide (status_code r <> 201)
  then raise (Error (PyStr.of_Z (status_code r) +:+ " : " +:+ text r))
  else
    _start_children workers ;;
    _run_loop c ppid (iter_lines r) (broken r).

(** the state in which the loop of [_run] starts *)
Definition loop_start (workers : nat) (s : state) : state :=
  {| queue := queue s; ping_queue := ping_queue s;
     children := children s ++ child_names workers;
     drop_count := 0; ping_drop := 0;
     _STAMP_TS := _STAMP_TS s; req := req s; uuid_count := uuid_count s;
     trace := trace s ++ map Spawn (child_names workers) |}.

(** the handshake was answered, with status 201 *)
Definition subscribed (post : exn + http_response) : bool :=
  match post with
  | inr r => bool_decide (status_code r = 201)
  | inl _ => false
  end.

(** the counters of the reader are within their bounds *)
Definition counters_within (limit : Z) (s : state) : Prop :=
  0 <= ping_drop s /\ ping_drop s <= drop_count s /\ drop_count s <= limit.

(** the queue a worker is not bound to *)
Definition other (q : qkind) : qkind :=
  match q with DataQ => PingQ | PingQ => DataQ end.

(** What a turn of a worker bound to [q] leaves alone, and what it may do
    to its own queue: take the item at its head. *)
Definition worker_frame (q : qkind) (s s' : state) : Prop :=
  queue_of q s' = drop 1 (queue_of q s)
  /\ queue_of (other q) s' = queue_of (other q) s
  /\ children s' = children s
  /\ drop_count s' = drop_count s
  /\ ping_drop s' = ping_drop s
  /\ lifecycle (trace s') = lifecycle (trace s)
  /\ (forall t0, _STAMP_TS s = Some t0 -> _STAMP_TS s' = Some t0).

(** What the handlers of the worker leave alone: everything but the trace,
    the identifier count and the cache, which is only ever filled. *)
Definition handler_frame (s s' : state) : Prop :=
  queue s' = queue s /\ ping_queue s' = ping_queue s
  /\ children s' = children s
  /\ drop_count s' = drop_count s
  /\ ping_drop s' = ping_drop s
  /\ lifecycle (trace s') = lifecycle (trace s)
  /\ (forall t0, _STAMP_TS s = Some t0 -> _STAMP_TS s' = Some t0).

(** the same collaborators seen with another state of the file system *)
Definition with_view (v : fsview) (E : collaborators) : collaborators :=
  {| from_string := from_string E; execute := execute E; publish := publish E;
     reply := reply E; uuid4 := uuid4 E; view := v |}.

(** no path exists: neither the marker nor the parent process *)
Definition deserted : fsview :=
  {| path_exists := fun _ => false; getmtime := fun _ => 0 |}.

(** ** [tests/delete_all_docker.py] *)

(** The calls [delete_all] makes, in order. *)
Inductive docker_call : Type :=
| Print (line : string)
| Kill (container_id : json)
| Remove (container_id : json).

(** The docker client as the script sees it: the two listings (the second
    is taken after the kills), and what [kill] and [remove_container] raise.
    [show] renders an identifier as [str.format] does. *)
Record Client := {
  containers     : list (gmap string json);  (* client.containers(trunc=False) *)
  containers_all : list (gmap string json);  (* client.containers(all=True, trunc=False) *)
  kill             : json -> option exn;
  remove_container : json -> option exn;
  show             : json -> string
}.

(** One of the two loops: [verb] is printed before [act] is called with the
    value under [Id]; a listing entry without that key raises [KeyError]. *)
Fixpoint sweep (show : json -> string) (verb : string) (call : json -> docker_call)
    (act : json -> option exn) (l : list (gmap string json))
    : (exn + unit) * list docker_call :=
  match l with
  | [] => (inr tt, [])
  | ct :: l' =>
      match ct !! "Id" with
      | None => (inl (Error "KeyError: 'Id'"), [])
      | Some i =>
          match act i with
          | Some e => (inl e, [Print (verb +:+ show i); call i])
          | None =>
              let (r, calls) := sweep show verb call act l' in
              (r, Print (verb +:+ show i) :: call i :: calls)
          end
      end
  end.

Definition delete_all (client : Client) : (exn + unit) * list docker_call :=
  match sweep (show client) "Killing " Kill (kill client) (containers client) with
  | (inl e, calls) => (inl e, calls)
  | (inr _, calls) =>
      let (r, calls') :=
        sweep (show client) "Removing " Remove (remove_container client)
          (containers_all client) in
      (r, calls ++ calls')
  end.

(** the identifier of a listing entry ([None] of Python when it has none) *)
Definition id_of (ct : gmap string json) : json := default JNull (ct !! "Id").

(** * Properties *)

(** ** Strings: stripping keeps the heartbeat marker *)

Section strip_facts.
Import PyStr.

Example strip_line :
  strip (String "009"%char "  {x: 1} " +:+ String "013"%char (String "010"%char EmptyString))
  = "{x: 1}".
Proof. reflexivity. Qed.

Example strip_blank : strip "   " = EmptyString.
Proof. reflexivity. Qed.

Example marker_found : contains PING Scenario.ping_line = true.
Proof. reflexivity. Qed.

Example marker_needs_quote : contains PING "{name: ping}" = false.
Proof. reflexivity. Qed.

Lemma lstrip_head s : lstrip s = EmptyString \/ starts_solid (lstrip s) = true.
Proof.
  induction s as [|c s IH]; [now left|]. cbn [lstrip].
  destruct (is_space c) eqn:Hc; [exact IH|]. right. cbn. now rewrite Hc.
Qed.

Lemma rstrip_last s : rstrip s = EmptyString \/ ends_solid (rstrip s) = true.
Proof.
  induction s as [|c s IH]; [now left|]. cbn [rstrip].
  destruct (is_space c && is_empty (rstrip s)) eqn:Hb; [now left|]. right.
  destruct (rstrip s) as [|d r] eqn:Hr.
  - cbn in *. rewrite andb_true_r in Hb. now rewrite Hb.
  - destruct IH as [|IH]; [discriminate|]. exact IH.
Qed.

Lemma prefix_space_head n c s :
  starts_solid n = true -> is_space c = true -> String.prefix n (String c s) = false.
Proof.
  destruct n as [|a n]; simpl; [discriminate|].
  intros Ha Hc. destruct (ascii_dec a c) as [->|]; [|reflexivity].
  rewrite Hc in Ha. discriminate.
Qed.

Lemma contains_lstrip n s :
  starts_solid n = true -> contains n (lstrip s) = contains n s.
Proof.
  intros Hn. induction s as [|c s IH]; [reflexivity|].
  cbn [lstrip]. destruct (is_space c) eqn:Hc; [|reflexivity].
  rewrite IH. cbn [contains]. now rewrite prefix_space_head.
Qed.

Lemma ends_solid_nonempty n : ends_solid n = true -> String.prefix n EmptyString = false.
Proof. destruct n; [discriminate|reflexivity]. Qed.

Lemma prefix_rstrip n :
  ends_solid n = true -> forall s, String.prefix n (rstrip s) = String.prefix n s.
Proof.
  induction n as [|a n IH]; [discriminate|].
  intros Hn [|c s]; [reflexivity|].
  cbn [rstrip].
  destruct (is_space c && is_empty (rstrip s)) eqn:Hb.
  - apply andb_prop in Hb as [Hc Hr].
    cbn [String.prefix]. destruct (ascii_dec a c) as [->|]; [|reflexivity].
    destruct n as [|b n].
    + cbn in Hn. rewrite Hc in Hn. discriminate.
    + rewrite <- IH by exact Hn.
      destruct (rstrip s); [reflexivity|discriminate].
  - cbn [String.prefix]. destruct (ascii_dec a c) as [->|]; [|reflexivity].
    destruct n as [|b n]; [now destruct (rstrip s), s|].
    apply IH. exact Hn.
Qed.

Lemma contains_rstrip n s :
  ends_solid n = true -> contains n (rstrip s) = contains n s.
Proof.
  intros Hn. induction s as [|c s IH]; [reflexivity|].
  pose proof (prefix_rstrip n Hn (String c s)) as Hp.
  cbn [rstrip] in *.
  destruct (is_space c && is_empty (rstrip s)) eqn:Hb.
  - apply andb_prop in Hb as [_ Hr].
    cbn [contains]. rewrite <- Hp, <- IH.
    destruct (rstrip s); [|discriminate].
    cbn [contains]. now rewrite (ends_solid_nonempty n Hn).
  - cbn [contains]. now rewrite Hp, IH.
Qed.

Lemma contains_strip n s :
  starts_solid n = true -> ends_solid n = true ->
  contains n (strip s) = contains n s.
Proof.
  intros H1 H2. unfold strip. now rewrite contains_rstrip, contains_lstrip.
Qed.

Lemma contains_PING_strip s : contains PING (strip s) = contains PING s.
Proof. now apply contains_strip. Qed.

Lemma contains_nonempty n s :
  ends_solid n = true -> contains n s = true -> s <> EmptyString.
Proof.
  intros Hn Hs ->. destruct n; [discriminate Hn|discriminate Hs].
Qed.

Lemma len_pos s : bool_decide (0 < len s) = negb (is_empty s).
Proof. destruct s; [reflexivity|]. apply bool_decide_eq_true_2. unfold len. cbn. lia. Qed.

End strip_facts.

(** ** The monad *)

Lemma bind_run {A B} (m : M A) (k : A -> M B) s a s' :
  m s = (inr a, s') -> bind m k s = k a s'.
Proof. unfold bind. now intros ->. Qed.

Lemma bind_raise {A B} (m : M A) (k : A -> M B) s e s' :
  m s = (inl e, s') -> bind m k s = (inl e, s').
Proof. unfold bind. now intros ->. Qed.

Lemma try_finally_run {A} (m : M A) (f : M unit) s r s1 u s2 :
  m s = (r, s1) -> f s1 = (inr u, s2) -> try_finally m f s = (r, s2).
Proof. unfold try_finally. now intros -> ->. Qed.

(** ** Liveness monitor *)

Section liveness.
Context (c : Config).

Lemma check_ts_absent v s :
  marker_present c v = false -> _check_ts c v s = (inr true, s).
Proof. unfold _check_ts, marker_present. now intros ->. Qed.

Lemma check_ts_capture v s :
  marker_present c v = true -> _STAMP_TS s = None ->
  _check_ts c v s = (inr true, set_STAMP_TS (Some (marker_time c v)) s).
Proof.
  unfold _check_ts, marker_present, marker_time. intros -> Hs. cbn.
  unfold bind, get. cbn. rewrite Hs. cbn. unfold ret.
  now rewrite bool_decide_eq_true_2.
Qed.

Lemma check_ts_cached v s t0 :
  _STAMP_TS s = Some t0 -> _check_ts c v s = (inr (same_generation c t0 v), s).
Proof.
  unfold _check_ts, same_generation, marker_present, marker_time. intros Hs.
  destruct (path_exists v (stamp c)); cbn; [|reflexivity].
  unfold bind, get. cbn. rewrite Hs. cbn. rewrite Hs. unfold ret.
  do 2 f_equal. apply bool_decide_ext. split; congruence.
Qed.

Lemma should_run_check v pid s b s' :
  _check_ts c v s = (inr b, s') ->
  _should_run c v pid s = (inr (b && parent_present pid v), s').
Proof.
  intros H. unfold _should_run. rewrite (bind_run _ _ _ _ _ H).
  destruct b; cbn; [|reflexivity]. now destruct pid.
Qed.

Lemma checks_cached (f : fsview -> M bool) (g : fsview -> bool) vs s :
  (forall v, f v s = (inr (g v), s)) ->
  mapM f vs s = (inr (map g vs), s).
Proof.
  intros Hf. induction vs as [|v vs IH]; [reflexivity|].
  cbn [mapM map]. rewrite (bind_run _ _ _ _ _ (Hf v)).
  now rewrite (bind_run _ _ _ _ _ IH).
Qed.

Lemma checks_before_capture (f : fsview -> M bool) (g : fsview -> bool) vs0 rest s :
  Forall (fun v => f v s = (inr (g v), s)) vs0 ->
  mapM f (vs0 ++ rest) s =
  match mapM f rest s with
  | (inr bs, s') => (inr (map g vs0 ++ bs), s')
  | (inl e, s') => (inl e, s')
  end.
Proof.
  induction 1 as [|v vs0 Hv _ IH]; cbn [app mapM map].
  - now destruct (mapM f rest s) as [[|] ?].
  - rewrite (bind_run _ _ _ _ _ Hv). unfold bind at 1. rewrite IH.
    now destruct (mapM f rest s) as [[|] ?].
Qed.

End liveness.

(** C2, as stated, fails: after the marker's time has drifted from the cached
    value (second check, [false]) the check answers [true] again as soon as
    the marker is removed (third check) or its time is back at the cached
    value (fourth check). *)
Lemma liveness_drift_is_not_latched :
  fst (mapM (fun w => _should_run Scenario.cfg w None)
         [Scenario.stamped 10; Scenario.stamped 20; Scenario.unstamped; Scenario.stamped 10]
         boot)
  = inr [true; false; true; true].
Proof. reflexivity. Qed.

(** C2 (amended): in a process whose cache is still empty, the first check
    that finds the marker present stores its modification time and the cache
    is never written again; every later check answers [false] exactly when
    the marker is present with a time different from the cached one (and
    [_should_run] is then [false] as well), and answers [true] when the
    marker is absent or carries the cached time. *)
Theorem liveness_compares_with_first_capture c pid vs0 v vs s :
  _STAMP_TS s = None ->
  Forall (fun w => marker_present c w = false) vs0 ->
  marker_present c v = true ->
  mapM (_check_ts c) (vs0 ++ v :: vs) s
  = (inr (map (fun _ => true) vs0
          ++ true :: map (same_generation c (marker_time c v)) vs),
     set_STAMP_TS (Some (marker_time c v)) s)
  /\ mapM (fun w => _should_run c w pid) (vs0 ++ v :: vs) s
  = (inr (map (parent_present pid) vs0
          ++ parent_present pid v
          :: map (fun w => same_generation c (marker_time c v) w && parent_present pid w) vs),
     set_STAMP_TS (Some (marker_time c v)) s).
Proof.
  intros Hs Habs Hv.
  set (s1 := set_STAMP_TS (Some (marker_time c v)) s).
  assert (Hs1 : _STAMP_TS s1 = Some (marker_time c v)) by reflexivity.
  split.
  - rewrite (checks_before_capture _ (fun _ => true)).
    + cbn [mapM]. rewrite (bind_run _ _ _ _ _ (check_ts_capture c v s Hv Hs)).
      fold s1.
      rewrite (bind_run _ _ _ _ _
                 (checks_cached (_check_ts c) (same_generation c (marker_time c v)) vs s1
                    (fun w => check_ts_cached c w s1 _ Hs1))).
      reflexivity.
    + eapply Forall_impl; [exact Habs|]. intros w Hw. now apply check_ts_absent.
  - rewrite (checks_before_capture _ (parent_present pid)).
    + cbn [mapM].
      rewrite (bind_run _ _ _ _ _
                 (should_run_check c v pid s _ _ (check_ts_capture c v s Hv Hs))).
      fold s1.
      rewrite (bind_run _ _ _ _ _
                 (checks_cached (fun w => _should_run c w pid)
                    (fun w => same_generation c (marker_time c v) w && parent_present pid w)
                    vs s1
                    (fun w => should_run_check c w pid s1 _ _ (check_ts_cached c w s1 _ Hs1)))).
      reflexivity.
    + eapply Forall_impl; [exact Habs|]. intros w Hw. cbn beta.
      now rewrite (should_run_check c w pid s _ _ (check_ts_absent c w s Hw)).
Qed.

Lemma liveness_compares_with_first_capture_witness :
  mapM (fun w => _should_run Scenario.cfg w (Some "4711"))
    ([Scenario.unstamped] ++ Scenario.stamped 10
       :: [Scenario.stamped 20; Scenario.unstamped; Scenario.stamped 10]) boot
  = (inr [true; true; false; true; true], set_STAMP_TS (Some 10) boot).
Proof.
  apply (liveness_compares_with_first_capture Scenario.cfg (Some "4711")
           [Scenario.unstamped] (Scenario.stamped 10)
           [Scenario.stamped 20; Scenario.unstamped; Scenario.stamped 10] boot);
    [reflexivity | repeat constructor | reflexivity].
Defined.

Lemma set_STAMP_TS_same s : set_STAMP_TS (_STAMP_TS s) s = s.
Proof. now destruct s. Qed.

Lemma should_run_eq c v pid s :
  _should_run c v pid s
  = (inr (alive_now c v pid (_STAMP_TS s)), set_STAMP_TS (capture c v (_STAMP_TS s)) s).
Proof.
  unfold alive_now, capture.
  destruct (_STAMP_TS s) as [t0|] eqn:Hs.
  - rewrite (should_run_check c v pid s _ _ (check_ts_cached c v s t0 Hs)).
    now rewrite <- Hs, set_STAMP_TS_same.
  - destruct (marker_present c v) eqn:Hv.
    + now rewrite (should_run_check c v pid s _ _ (check_ts_capture c v s Hv Hs)).
    + rewrite (should_run_check c v pid s _ _ (check_ts_absent c v s Hv)).
      now rewrite <- Hs, set_STAMP_TS_same.
Qed.

(** ** Stream reader *)

Section reader.
Context (c : Config) (ppid : option string).

Lemma run_line_skip t s :
  PyStr.strip (raw t) = EmptyString ->
  _run_line c ppid t s = line_end c ppid t (workers_take t s).
Proof.
  intros Hl. unfold _run_line, line_end. rewrite Hl, len_pos. cbn.
  unfold bind, modify, try_except, ret. cbn.
  rewrite should_run_eq. cbn.
  now destruct (alive_now _ _ _ _).
Qed.

Lemma run_line_put t s :
  let s1 := workers_take t s in
  let line := PyStr.strip (raw t) in
  let q := if PyStr.contains PING line then PingQ else DataQ in
  line <> EmptyString ->
  (length (queue_of q s1) < queue_depth c)%nat ->
  _run_line c ppid t s
  = line_end c ppid t
      (if PyStr.contains PING line
       then set_ping_drop 0 (set_ping_queue (ping_queue s1 ++ [line]) s1)
       else set_queue (queue s1 ++ [line]) s1).
Proof.
  intros s1 line q Hl Hq. unfold _run_line, line_end. fold s1 line.
  rewrite len_pos. destruct line as [|a l] eqn:El; [done|]. cbn [PyStr.is_empty negb].
  unfold bind at 1. unfold modify at 1. fold s1.
  subst q. destruct (PyStr.contains PING (String a l)) eqn:Hp.
  - unfold bind, try_except, queue_put, modify, ret. cbn [queue_of] in *.
    rewrite bool_decide_eq_false_2 by lia. cbn.
    rewrite should_run_eq. cbn. now destruct (alive_now _ _ _ _).
  - unfold bind, try_except, queue_put, modify, ret. cbn [queue_of] in *.
    rewrite bool_decide_eq_false_2 by lia. cbn.
    rewrite should_run_eq. cbn. now destruct (alive_now _ _ _ _).
Qed.

Lemma run_line_full t s :
  let s1 := workers_take t s in
  let line := PyStr.strip (raw t) in
  let ping := PyStr.contains PING line in
  let q := if ping then PingQ else DataQ in
  line <> EmptyString ->
  (queue_depth c <= length (queue_of q s1))%nat ->
  _run_line c ppid t s
  = if bool_decide (drop_limit c ping < drop_count s + 1)
    then (inr Break,
          emit (Log ERROR ("Max dropped requests [" +:+ PyStr.of_Z (drop_limit c ping)
                           +:+ "] exceeded"))
            (dropped line ping s1))
    else line_end c ppid t (dropped line ping s1).
Proof.
  intros s1 line ping q Hl Hq. unfold _run_line, line_end. fold s1 line. fold ping.
  rewrite len_pos. destruct line as [|a l] eqn:El; [done|]. cbn [PyStr.is_empty negb].
  unfold bind at 1. unfold modify at 1. fold s1.
  subst q. unfold drop_limit, dropped. destruct ping.
  - unfold bind, try_except, queue_put, modify, ret. cbn [queue_of] in *.
    rewrite bool_decide_eq_true_2 by lia. cbn.
    destruct (bool_decide (max_dropped_ping c < drop_count s + 1)); cbn; [reflexivity|].
    rewrite should_run_eq. cbn. now destruct (alive_now _ _ _ _).
  - unfold bind, try_except, queue_put, modify, ret. cbn [queue_of] in *.
    rewrite bool_decide_eq_true_2 by lia. cbn.
    destruct (bool_decide (max_dropped_requests c < drop_count s + 1)); cbn; [reflexivity|].
    rewrite should_run_eq. cbn. now destruct (alive_now _ _ _ _).
Qed.

End reader.

Section reader_claims.
Context (c : Config) (ppid : option string).

Lemma line_end_keeps t s :
  let r := line_end c ppid t s in
  queue (snd r) = queue s /\ ping_queue (snd r) = ping_queue s
  /\ drop_count (snd r) = drop_count s /\ ping_drop (snd r) = ping_drop s
  /\ children (snd r) = children s
  /\ fst r = inr (if alive_now c (tick_view t) ppid (_STAMP_TS s) then Continue else Break).
Proof. unfold line_end. now destruct (alive_now _ _ _ _). Qed.

(** Case analysis on one turn of the loop: blank line, line enqueued,
    line dropped. *)
Lemma run_line_cases (P : (exn + ctl) * state -> Prop) t s :
  let s1 := workers_take t s in
  let line := PyStr.strip (raw t) in
  let ping := PyStr.contains PING line in
  let q := if ping then PingQ else DataQ in
  (line = EmptyString -> P (line_end c ppid t s1)) ->
  (line <> EmptyString -> (length (queue_of q s1) < queue_depth c)%nat ->
   P (line_end c ppid t
        (if ping then set_ping_drop 0 (set_ping_queue (ping_queue s1 ++ [line]) s1)
         else set_queue (queue s1 ++ [line]) s1))) ->
  (line <> EmptyString -> (queue_depth c <= length (queue_of q s1))%nat ->
   P (if bool_decide (drop_limit c ping < drop_count s + 1)
      then (inr Break,
            emit (Log ERROR ("Max dropped requests [" +:+ PyStr.of_Z (drop_limit c ping)
                             +:+ "] exceeded"))
              (dropped line ping s1))
      else line_end c ppid t (dropped line ping s1))) ->
  P (_run_line c ppid t s).
Proof.
  intros s1 line ping q H0 H1 H2.
  destruct (decide (line = EmptyString)) as [He|He].
  - rewrite run_line_skip by exact He. now apply H0.
  - destruct (decide (length (queue_of q s1) < queue_depth c)%nat) as [Hq|Hq].
    + rewrite run_line_put by assumption. now apply H1.
    + rewrite run_line_full by (try assumption; fold s1 line ping q; lia).
      apply H2; [assumption|lia].
Qed.

Lemma run_line_returns t s : exists r s', _run_line c ppid t s = (inr r, s').
Proof.
  apply run_line_cases; intros;
    repeat match goal with
      | |- context [line_end ?c ?p ?t ?s] =>
          unfold line_end; destruct (alive_now c (tick_view t) p (_STAMP_TS s))
      | |- context [bool_decide ?P] => destruct (bool_decide P)
      end; eauto.
Qed.


Lemma run_line_drop_count t s : drop_count s <= drop_count (snd (_run_line c ppid t s)).
Proof.
  apply run_line_cases; intros;
    try (destruct (line_end_keeps t (workers_take t s)) as (_ & _ & -> & _); cbn; lia).
  - match goal with |- context [line_end c ppid t ?x] =>
      destruct (line_end_keeps t x) as (_ & _ & -> & _) end.
    destruct (PyStr.contains _ _); cbn; lia.
  - destruct (bool_decide _).
    + unfold dropped. destruct (PyStr.contains _ _); cbn; lia.
    + match goal with |- context [line_end c ppid t ?x] =>
        destruct (line_end_keeps t x) as (_ & _ & -> & _) end.
      unfold dropped. destruct (PyStr.contains _ _); cbn; lia.
Qed.

Lemma run_loop_drop_count lines stop s :
  drop_count s <= drop_count (snd (_run_loop c ppid lines stop s)).
Proof.
  revert s. induction lines as [|t lines IH]; intros s; cbn [_run_loop].
  - destruct stop; cbn; lia.
  - pose proof (run_line_drop_count t s) as Hd.
    destruct (run_line_returns t s) as (r & s1 & Hr).
    rewrite (bind_run _ _ _ _ _ Hr). rewrite Hr in Hd. cbn in Hd.
    destruct r; cbn; [|lia]. specialize (IH s1). lia.
Qed.

Lemma run_line_routing t s :
  let s1 := workers_take t s in
  let line := PyStr.strip (raw t) in
  let s' := snd (_run_line c ppid t s) in
  if PyStr.contains PING (raw t)
  then queue s' = queue s1
       /\ ping_queue s'
          = (if bool_decide (length (ping_queue s1) < queue_depth c)%nat
             then ping_queue s1 ++ [line] else ping_queue s1)
  else ping_queue s' = ping_queue s1
       /\ queue s'
          = (if bool_decide (line <> EmptyString /\ (length (queue s1) < queue_depth c)%nat)
             then queue s1 ++ [line] else queue s1).
Proof.
  intros s1 line s'. subst s'. rewrite <- contains_PING_strip. fold line.
  apply run_line_cases; fold s1 line.
  - intros He. destruct (line_end_keeps t s1) as (-> & -> & _).
    destruct (PyStr.contains PING line) eqn:Hk.
    + apply contains_nonempty in Hk; [done|reflexivity].
    + rewrite bool_decide_eq_false_2; [done|]. now intros [? _].
  - intros Hne Hq.
    match goal with |- context [line_end c ppid t ?x] =>
      destruct (line_end_keeps t x) as (-> & -> & _) end.
    destruct (PyStr.contains PING line); cbn in *; rewrite bool_decide_eq_true_2; auto.
  - intros Hne Hq.
    assert (Hsame : queue (dropped line (PyStr.contains PING line) s1) = queue s1
                    /\ ping_queue (dropped line (PyStr.contains PING line) s1) = ping_queue s1)
      by (unfold dropped; now destruct (PyStr.contains PING line)).
    destruct Hsame as [Hq1 Hq2].
    assert (Hgoal : let s2 := dropped line (PyStr.contains PING line) s1 in
              if PyStr.contains PING line
              then queue s2 = queue s1
                   /\ ping_queue s2
                      = (if bool_decide (length (ping_queue s1) < queue_depth c)%nat
                         then ping_queue s1 ++ [line] else ping_queue s1)
              else ping_queue s2 = ping_queue s1
                   /\ queue s2
                      = (if bool_decide (line <> EmptyString
                                         /\ (length (queue s1) < queue_depth c)%nat)
                         then queue s1 ++ [line] else queue s1)).
    { cbn zeta. rewrite Hq1, Hq2.
      destruct (PyStr.contains PING line); cbn [queue_of] in Hq;
        (rewrite bool_decide_eq_false_2; [auto|]); [lia | intros [_ ?]; lia]. }
    cbn zeta in Hgoal. destruct (bool_decide (drop_limit c _ < _)); [exact Hgoal|].
    match goal with |- context [line_end c ppid t ?x] =>
      destruct (line_end_keeps t x) as (-> & -> & _) end.
    exact Hgoal.
Qed.

Lemma run_line_sorted t s :
  Forall heartbeat (ping_queue s) -> Forall data_item (queue s) ->
  Forall heartbeat (ping_queue (snd (_run_line c ppid t s)))
  /\ Forall data_item (queue (snd (_run_line c ppid t s))).
Proof.
  intros Hp Hd.
  assert (Hp1 : Forall heartbeat (ping_queue (workers_take t s))) by (cbn; now apply Forall_drop).
  assert (Hd1 : Forall data_item (queue (workers_take t s))) by (cbn; now apply Forall_drop).
  pose proof (run_line_routing t s) as Hr. cbn zeta in Hr.
  rewrite <- contains_PING_strip in Hr.
  destruct (PyStr.contains PING (PyStr.strip (raw t))) eqn:Hk.
  - destruct Hr as (-> & ->). split; [|assumption].
    destruct (bool_decide _); [|assumption].
    apply Forall_app; split; [assumption|]. now constructor.
  - destruct Hr as (-> & ->). split; [assumption|].
    destruct (bool_decide _) eqn:Hb; [|assumption].
    apply bool_decide_eq_true_1 in Hb as [Hne _].
    apply Forall_app; split; [assumption|]. constructor; [now split|constructor].
Qed.

Lemma run_loop_sorted lines stop s :
  Forall heartbeat (ping_queue s) -> Forall data_item (queue s) ->
  Forall heartbeat (ping_queue (snd (_run_loop c ppid lines stop s)))
  /\ Forall data_item (queue (snd (_run_loop c ppid lines stop s))).
Proof.
  revert s. induction lines as [|t lines IH]; intros s Hp Hd; cbn [_run_loop].
  - destruct stop; cbn; auto.
  - destruct (run_line_sorted t s Hp Hd) as [Hp1 Hd1].
    destruct (run_line_returns t s) as (r & s1 & Hr).
    rewrite (bind_run _ _ _ _ _ Hr). rewrite Hr in Hp1, Hd1. cbn in Hp1, Hd1.
    destruct r; cbn; auto.
Qed.

End reader_claims.

(** C5: whatever the value of the ping drop counter, a heartbeat line that is
    accepted by the ping queue sets the counter to zero; a data line that is
    accepted by the data queue leaves the counter as it was. *)
Theorem ping_enqueue_resets_ping_drop c ppid t s :
  let s1 := workers_take t s in
  let line := PyStr.strip (raw t) in
  let s' := snd (_run_line c ppid t s) in
  (PyStr.contains PING (raw t) = true ->
   (length (ping_queue s1) < queue_depth c)%nat ->
   ping_queue s' = ping_queue s1 ++ [line] /\ ping_drop s' = 0)
  /\ (PyStr.contains PING (raw t) = false ->
      line <> EmptyString ->
      (length (queue s1) < queue_depth c)%nat ->
      queue s' = queue s1 ++ [line] /\ ping_drop s' = ping_drop s).
Proof.
  intros s1 line s'. subst s'. rewrite <- contains_PING_strip. fold line. split.
  - intros Hk Hq.
    assert (Hne : line <> EmptyString) by (eapply contains_nonempty; [|exact Hk]; reflexivity).
    rewrite run_line_put; fold s1 line; rewrite ?Hk; try assumption.
    match goal with |- context [line_end c ppid t ?x] =>
      destruct (line_end_keeps c ppid t x) as (_ & -> & _ & -> & _) end.
    now cbn.
  - intros Hk Hne Hq.
    rewrite run_line_put; fold s1 line; rewrite ?Hk; try assumption.
    match goal with |- context [line_end c ppid t ?x] =>
      destruct (line_end_keeps c ppid t x) as (-> & _ & _ & -> & _) end.
    now cbn.
Qed.

Lemma ping_enqueue_resets_ping_drop_witness :
  let s := set_ping_drop 7 boot in
  ping_drop (snd (_run_line Scenario.cfg None (Scenario.arrives Scenario.ping_line) s)) = 0
  /\ ping_drop (snd (_run_line Scenario.cfg None (Scenario.arrives "a") s)) = 7.
Proof.
  intros s.
  destruct (ping_enqueue_resets_ping_drop Scenario.cfg None
              (Scenario.arrives Scenario.ping_line) s) as [H1 _].
  destruct (ping_enqueue_resets_ping_drop Scenario.cfg None
              (Scenario.arrives "a") s) as [_ H2].
  split.
  - apply H1; [reflexivity | cbn; lia].
  - apply H2; [reflexivity | discriminate | cbn; lia].
Defined.

(** C7: a line that contains the heartbeat marker never changes the data
    queue and is appended (stripped) to the ping queue when that queue has
    room; a line without the marker never changes the ping queue and is
    appended to the data queue when it is not blank and that queue has room.
    Hence, from empty queues and for every sequence of lines, the ping queue
    holds heartbeat lines only and the data queue holds non-empty data lines
    only. *)
Theorem lines_go_to_their_queue c ppid :
  (forall t s,
     let s1 := workers_take t s in
     let line := PyStr.strip (raw t) in
     let s' := snd (_run_line c ppid t s) in
     if PyStr.contains PING (raw t)
     then queue s' = queue s1
          /\ ping_queue s'
             = (if bool_decide (length (ping_queue s1) < queue_depth c)%nat
                then ping_queue s1 ++ [line] else ping_queue s1)
     else ping_queue s' = ping_queue s1
          /\ queue s'
             = (if bool_decide (line <> EmptyString
                                /\ (length (queue s1) < queue_depth c)%nat)
                then queue s1 ++ [line] else queue s1))
  /\ (forall lines stop s,
        let s' := snd (_run_loop c ppid lines stop (set_ping_queue [] (set_queue [] s))) in
        Forall heartbeat (ping_queue s') /\ Forall data_item (queue s')).
Proof.
  split.
  - intros t s. apply run_line_routing.
  - intros lines stop s. apply run_loop_sorted; constructor.
Qed.

(** C10: every line that is dropped, heartbeat or data, adds one to
    [drop_count], and the loop is left at once exactly when the new value of
    [drop_count] exceeds the limit of the line's kind (otherwise the liveness
    check decides); [drop_count] never decreases while the loop runs. *)
Theorem every_drop_counts_toward_the_limit c ppid :
  (forall t s,
     let s1 := workers_take t s in
     let line := PyStr.strip (raw t) in
     let ping := PyStr.contains PING line in
     let r := _run_line c ppid t s in
     line <> EmptyString ->
     (queue_depth c <= length (queue_of (if ping then PingQ else DataQ) s1))%nat ->
     drop_count (snd r) = drop_count s + 1
     /\ (fst r = inr Break <->
         drop_limit c ping < drop_count s + 1
         \/ alive_now c (tick_view t) ppid (_STAMP_TS s) = false))
  /\ (forall lines stop s,
        drop_count s <= drop_count (snd (_run_loop c ppid lines stop s))).
Proof.
  split; [|apply run_loop_drop_count].
  intros t s s1 line ping r Hne Hfull. subst r.
  rewrite run_line_full by assumption. fold s1 line ping.
  assert (Hd : drop_count (dropped line ping s1) = drop_count s + 1)
    by (unfold dropped; now destruct ping).
  assert (Hs : _STAMP_TS (dropped line ping s1) = _STAMP_TS s)
    by (unfold dropped; now destruct ping).
  destruct (bool_decide (drop_limit c ping < drop_count s + 1)) eqn:Hb.
  - apply bool_decide_eq_true_1 in Hb. cbn. split; [exact Hd|]. split; auto.
  - apply bool_decide_eq_false_1 in Hb.
    destruct (line_end_keeps c ppid t (dropped line ping s1)) as (_ & _ & -> & _ & _ & ->).
    rewrite Hs. split; [exact Hd|].
    destruct (alive_now _ _ _ _); split; intros H; auto; try discriminate.
    destruct H as [H|H]; [contradiction|discriminate].
Qed.

Lemma every_drop_counts_toward_the_limit_witness :
  let s := set_ping_queue [Scenario.ping_line] (set_drop_count 3 boot) in
  let r := _run_line Scenario.cfg None (Scenario.arrives Scenario.ping_line) s in
  drop_count (snd r) = 3 + 1
  /\ (fst r = inr Break <->
      2 < 3 + 1 \/ alive_now Scenario.cfg (Scenario.stamped 10) None None = false).
Proof.
  intros s.
  destruct (every_drop_counts_toward_the_limit Scenario.cfg None) as [H _].
  apply (H (Scenario.arrives Scenario.ping_line) s); [discriminate | vm_compute; lia].
Defined.

(** C1 (evaluation of the code where it departs from the claim): queues of
    depth one, heartbeat limit 2, no worker takes anything.  Three data
    lines are dropped, a heartbeat is accepted, the next heartbeat is
    dropped: [ping_drop] is 1, which does not exceed 2, and yet the loop is
    left on that line, because [drop_count], now 4, is what is compared with
    the heartbeat limit.  The last line is never read. *)
Lemma heartbeat_overflow_compares_drop_count :
  let r := _run_loop Scenario.cfg None Scenario.congested None boot in
  fst r = inr tt
  /\ ping_drop (snd r) = 1
  /\ max_dropped_ping Scenario.cfg = 2
  /\ drop_count (snd r) = 4
  /\ last (trace (snd r)) = Some (Log ERROR "Max dropped requests [2] exceeded")
  /\ queue (snd r) = ["a"]
  /\ ping_queue (snd r) = [Scenario.ping_line].
Proof. vm_compute. repeat split; reflexivity. Qed.

(** ** Dispatcher *)

Lemma for_each_returns {A} (body : A -> M unit) l :
  (forall x s, exists s', body x s = (inr tt, s')) ->
  forall s, exists s', for_each l body s = (inr tt, s').
Proof.
  intros Hb. induction l as [|x l IH]; intros s; cbn [for_each]; [eauto|].
  destruct (Hb x s) as [s1 H1]. rewrite (bind_run _ _ _ _ _ H1). apply IH.
Qed.

Lemma start_children_returns workers s :
  exists s', _start_children workers s = (inr tt, s').
Proof.
  unfold _start_children.
  destruct (for_each_returns (fun i => spawn ("worker" +:+ PyStr.of_nat i)) (seq 0 workers)
              (fun x s0 => ex_intro _ _ eq_refl) s) as [s1 H1].
  rewrite (bind_run _ _ _ _ _ H1). eauto.
Qed.

Lemma terminate_children_returns h s :
  exists s', terminate_children h s = (inr tt, s').
Proof.
  unfold terminate_children. unfold bind at 1. cbn [get].
  apply for_each_returns. intros child s0.
  destruct (has_terminate h child); [|eauto].
  unfold try_except, bind, modify, raise, ret.
  destruct (terminate h child); eauto.
Qed.

(** ** Worker *)

Lemma published_snoc tr e :
  published (tr ++ [e])
  = published tr ++ match e with Publish r _ => [r] | _ => [] end.
Proof. unfold published. rewrite omap_app. now destruct e. Qed.

Lemma queue_of_set_req q v s : queue_of q (set_req v s) = queue_of q s.
Proof. now destruct q. Qed.

Section worker.
Context (c : Config) (E : collaborators) (worker_name : string) (q : qkind)
  (ppid : option string).

Lemma worker_try_empty s :
  queue_of q s = [] ->
  _worker_try E worker_name q s = (inl Empty, set_req None s).
Proof.
  intros Hq. unfold _worker_try, bind, modify, queue_get. cbn.
  rewrite queue_of_set_req, Hq. reflexivity.
Qed.

Lemma worker_try_undecoded s line rest e :
  queue_of q s = line :: rest ->
  from_string E line = inl e ->
  _worker_try E worker_name q s = (inl e, set_queue_of q rest (set_req None s)).
Proof.
  intros Hq Hd. unfold _worker_try, bind, modify, queue_get. cbn.
  rewrite queue_of_set_req, Hq, Hd. reflexivity.
Qed.

Lemma worker_try_decoded s line rest r :
  queue_of q s = line :: rest ->
  from_string E line = inr r ->
  _worker_try E worker_name q s
  = match execute E r with
    | inl e => (inl e, emit (finished worker_name r) (started worker_name q s line rest r))
    | inr None => (inr tt, emit (finished worker_name r) (started worker_name q s line rest r))
    | inr (Some resp) =>
        (match publish E resp with Some e => inl e | None => inr tt end,
         emit (finished worker_name r)
           (emit (Publish resp (publish E resp)) (started worker_name q s line rest r)))
    end.
Proof.
  intros Hq Hd. unfold _worker_try, bind, modify, queue_get, try_finally, log_request. cbn.
  rewrite queue_of_set_req, Hq, Hd. cbn.
  destruct (execute E r) as [e|[resp|]]; cbn; try reflexivity.
  unfold publisher_publish, bind, modify. cbn.
  now destruct (publish E resp).
Qed.

Lemma worker_except_unknown e sh :
  unknown e = true ->
  _worker_except c E ppid e sh
  = let error_id := uuid4 E (uuid_count sh) in
    let s1 := emit (Log EXCEPTION (error_id +:+ " : Unknown error"))
                (set_uuid_count (S (uuid_count sh)) sh) in
    let s2 := set_STAMP_TS (capture c (view E) (_STAMP_TS sh)) s1 in
    if alive_now c (view E) ppid (_STAMP_TS sh)
    then match req sh with
         | Some r =>
             match reply E r JNull with
             | Some d =>
                 let resp := set_error d (error_id +:+ " : " +:+ exn_str e) in
                 (match publish E resp with Some e' => inl e' | None => inr Continue end,
                  emit (Publish resp (publish E resp)) s2)
             | None => (inr Continue, s2)
             end
         | None => (inr Continue, s2)
         end
    else (inr Break, s2).
Proof.
  intros Hu. destruct e; try discriminate; cbn [_worker_except];
    unfold bind, fresh_uuid, get, modify, log, ret; cbn;
    rewrite should_run_eq; cbn;
    (destruct (alive_now _ _ _ _); cbn; [|reflexivity]);
    (destruct (req sh) as [r|]; [|reflexivity]);
    (destruct (reply E r JNull) as [d|]; [|reflexivity]);
    unfold publisher_publish, bind, modify; cbn;
    now destruct (publish E _).
Qed.

Lemma worker_except_locked m r sh :
  req sh = Some r ->
  _worker_except c E ppid (FailedToLock m) sh
  = let s1 := emit (Log INFO (m +:+ " for " +:+ req_name r)) sh in
    (inr (if alive_now c (view E) ppid (_STAMP_TS sh) then Continue else Break),
     set_STAMP_TS (capture c (view E) (_STAMP_TS sh)) s1).
Proof.
  intros Hr. cbn [_worker_except]. unfold bind, get, log, modify, poll. cbn.
  rewrite Hr. cbn. unfold bind. rewrite should_run_eq. reflexivity.
Qed.

Lemma worker_turn_raised e sh s :
  _worker_try E worker_name q s = (inl e, sh) ->
  _worker_turn c E worker_name q ppid s = _worker_except c E ppid e sh.
Proof.
  intros H. unfold _worker_turn, try_except. now rewrite (bind_raise _ _ _ _ _ H).
Qed.

End worker.





(** C8: when [agent.execute] raises [FailedToLock] for a decoded Request,
    the turn of the worker calls the publisher for nothing, writes one
    informational record made of the fault's text and the request's name,
    leaves [drop_count] and [ping_drop] as they were, and continues when the
    liveness check that follows passes (it leaves the loop otherwise). *)
Theorem lock_contention_is_skipped c E worker_name q ppid s line rest r m :
  queue_of q s = line :: rest ->
  from_string E line = inr r ->
  execute E r = inl (FailedToLock m) ->
  let out := _worker_turn c E worker_name q ppid s in
  trace (snd out)
  = trace s ++ [LogRequest r ("Request: " +:+ line);
                LogRequest r (worker_name +:+ " : Starting request " +:+ req_id r
                              +:+ " for " +:+ req_name r);
                finished worker_name r;
                Log INFO (m +:+ " for " +:+ req_name r)]
  /\ published (trace (snd out)) = published (trace s)
  /\ drop_count (snd out) = drop_count s
  /\ ping_drop (snd out) = ping_drop s
  /\ fst out = inr (if alive_now c (view E) ppid (_STAMP_TS s) then Continue else Break).
Proof.
  intros Hq Hd Hx out. subst out.
  pose proof (worker_try_decoded E worker_name q s line rest r Hq Hd) as Htry.
  rewrite Hx in Htry.
  rewrite (worker_turn_raised c E worker_name q ppid _ _ s Htry).
  assert (Hreq : req (emit (finished worker_name r) (started worker_name q s line rest r))
                 = Some r) by now destruct q.
  rewrite (worker_except_locked c E ppid m r _ Hreq). cbn zeta. cbn [snd fst].
  repeat apply conj.
  - destruct q; cbn; now rewrite <- !app_assoc.
  - destruct q; cbn; rewrite !published_snoc; cbn; now rewrite !app_nil_r.
  - now destruct q.
  - now destruct q.
  - now destruct q.
Qed.

Lemma lock_contention_is_skipped_witness :
  let out := _worker_turn Scenario.cfg Scenario.locked "worker0" DataQ
               (Some "4711") Scenario.pending in
  published (trace (snd out)) = []
  /\ last (trace (snd out))
     = Some (Log INFO "Failed to lock instance.1 for compute.instance.activate")
  /\ fst out = inr Continue.
Proof.
  destruct (lock_contention_is_skipped Scenario.cfg Scenario.locked "worker0" DataQ
              (Some "4711") Scenario.pending "{}" [] Scenario.activate
              "Failed to lock instance.1" eq_refl eq_refl eq_refl)
    as (Ht & Hp & _ & _ & Hr).
  split; [exact Hp|]. split; [now rewrite Ht | exact Hr].
Defined.

(** C4 (evaluation of the code where it departs from the claim): the
    executor returns a response, the publisher refuses it, liveness holds.
    The fault is caught on line 106, but the publication of the error reply
    on line 119 is refused as well and nothing catches that: the exception
    leaves [_worker_main] on this single item, with the second turn of the
    schedule never taken, and [_worker] logs its exit. *)
Lemma publish_failure_leaves_the_worker :
  let E := Scenario.publisher_down in
  let out := _worker Scenario.cfg "worker0" DataQ (Some "4711") [E; E] Scenario.pending in
  alive_now Scenario.cfg (view E) (Some "4711") None = true
  /\ fst out = inl (Error "connection refused")
  /\ last (trace (snd out)) = Some (Log ERROR "worker0 : Exiting")
  /\ uuid_count (snd out) = 1%nat.
Proof. vm_compute. repeat split; reflexivity. Qed.

(** A turn of the worker leaves the loop by [break] only after a failed
    liveness check. *)
Lemma worker_breaks_only_when_stale c E worker_name q ppid s :
  fst (_worker_turn c E worker_name q ppid s) = inr Break ->
  alive_now c (view E) ppid (_STAMP_TS s) = false.
Proof.
  unfold _worker_turn, try_except.
  destruct (_worker_try E worker_name q s) as [[e|[]] sh] eqn:Htry.
  - rewrite (bind_raise _ _ _ _ _ Htry).
    assert (Hts : _STAMP_TS sh = _STAMP_TS s).
    { revert Htry. unfold _worker_try, bind, modify, queue_get, try_finally, log_request,
        publisher_publish. cbn. rewrite queue_of_set_req.
      destruct (queue_of q s) as [|line rest]; [now intros [= <- <-]|].
      destruct (from_string E line) as [?|r]; cbn; [destruct q; now intros [= <- <-]|].
      destruct (execute E r) as [?|[resp|]]; cbn; [destruct q; now intros [= <- <-]| |discriminate].
      unfold bind, modify; cbn.
      destruct (publish E resp); cbn; [destruct q; now intros [= <- <-]|discriminate]. }
    destruct e as [| |m|m|z].
    + cbn [_worker_except]. unfold poll, bind. rewrite should_run_eq, Hts. cbn.
      now destruct (alive_now _ _ _ _).
    + rewrite worker_except_unknown by reflexivity. cbn zeta. rewrite Hts.
      destruct (alive_now _ _ _ _); [|reflexivity].
      destruct (req sh) as [r|]; [|discriminate].
      destruct (reply E r JNull); [|discriminate].
      now destruct (publish E _).
    + cbn [_worker_except]. unfold bind, get. cbn.
      destruct (req sh) as [r|]; [|discriminate]. unfold log, modify, poll, bind; cbn.
      rewrite should_run_eq. cbn. rewrite Hts. now destruct (alive_now _ _ _ _).
    + rewrite worker_except_unknown by reflexivity. cbn zeta. rewrite Hts.
      destruct (alive_now _ _ _ _); [|reflexivity].
      destruct (req sh) as [r|]; [|discriminate].
      destruct (reply E r JNull); [|discriminate].
      now destruct (publish E _).
    + discriminate.
  - rewrite (bind_run _ _ _ _ _ Htry). discriminate.
Qed.

(** ** Progress replies *)




(** ** Scenarios *)

(** A data queue of depth four, five data lines, no worker running: the
    fifth line is dropped, the counter is one, and with no drop tolerated the
    loop is left on that line. *)
Example fifth_line_overflows :
  let r := _run_loop Scenario.strict None
             (map Scenario.arrives ["a"; "b"; "c"; "d"; "e"; "f"]) None boot in
  queue (snd r) = ["a"; "b"; "c"; "d"]
  /\ drop_count (snd r) = 1
  /\ trace (snd r) = [Log INFO "Dropping request e";
                      Log ERROR "Max dropped requests [0] exceeded"].
Proof. vm_compute. repeat split; reflexivity. Qed.

(** An exception of the line iterator is not caught by [_run]: the children
    are terminated and the exception propagates; [sys.exit(0)] is not
    reached. *)
Example broken_stream_propagates :
  let out := _run Scenario.cfg Scenario.processes NoAuth 1 None
               (inr Scenario.cut_off) boot in
  fst out = inl (Error "Connection broken: IncompleteRead")
  /\ trace (snd out) = [Spawn "worker0"; Spawn "ping"; Terminate "worker0"; Terminate "ping"].
Proof. vm_compute. repeat split; reflexivity. Qed.

(** With a string credential the header lookup on line 164 raises before the
    request is sent. *)
Example string_credential_raises :
  _run Scenario.cfg Scenario.processes (Token "secret") 1 None
    (inr (Scenario.answer 201 "Created")) boot
  = (inl (Error "KeyError"), boot).
Proof. reflexivity. Qed.

(** A clean run: the children are started after the handshake and all of
    them are terminated before [sys.exit(0)]. *)
Example overloaded_run_exits_cleanly :
  let out := _run Scenario.cfg Scenario.processes NoAuth 2 (Some "4711")
               (inr (Scenario.answer 201 "Created")) boot in
  fst out = inl (SystemExit 0)
  /\ children (snd out) = ["worker0"; "worker1"; "ping"]
  /\ List.filter (fun e => match e with Spawn _ | Terminate _ => true | _ => false end)
       (trace (snd out))
     = [Spawn "worker0"; Spawn "worker1"; Spawn "ping";
        Terminate "worker0"; Terminate "worker1"; Terminate "ping"].
Proof. vm_compute. repeat split; reflexivity. Qed.

(** * Further properties *)

(** ** Subscription body *)

Example re_split_typical : re_split "1a5" = ["1"; "5"].
Proof. reflexivity. Qed.

Example re_split_letters : re_split "abc" = [EmptyString; EmptyString].
Proof. reflexivity. Qed.

Example re_split_mixed : re_split "a1bc2d" = [EmptyString; "1"; "2"; EmptyString].
Proof. reflexivity. Qed.

Lemma append_cons ch a b : String ch a +:+ b = String ch (a +:+ b).
Proof. reflexivity. Qed.

Lemma append_empty_r s : s +:+ EmptyString = s.
Proof. induction s as [|ch s IH]; [reflexivity|]. rewrite append_cons. congruence. Qed.

Lemma append_assoc_str a b d : (a +:+ b) +:+ d = a +:+ (b +:+ d).
Proof. induction a as [|ch a IH]; [reflexivity|]. rewrite !append_cons. congruence. Qed.

Lemma re_split_lower_cons b s : exists p ps, re_split_lower b s = p :: ps.
Proof.
  revert b. induction s as [|ch s IH]; intros b; cbn [re_split_lower]; [eauto|].
  destruct (is_lower ch).
  - destruct b; [apply IH|eauto].
  - destruct (IH false) as (p & ps & ->). eauto.
Qed.

Lemma re_split_lower_free b s : Forall (fun p => lower_free p = true) (re_split_lower b s).
Proof.
  revert b. induction s as [|ch s IH]; intros b; cbn [re_split_lower].
  - now repeat constructor.
  - destruct (is_lower ch) eqn:Hc.
    + destruct b; [apply IH|]. constructor; [reflexivity|apply IH].
    + specialize (IH false). destruct (re_split_lower false s) as [|p ps].
      * repeat constructor. cbn. now rewrite Hc.
      * inversion IH as [|? ? Hp Hps]; subst. constructor; [|exact Hps].
        cbn. now rewrite Hc, Hp.
Qed.

Lemma re_split_lower_whole b s : lower_free s = true -> re_split_lower b s = [s].
Proof.
  revert b. induction s as [|ch s IH]; intros b H; [reflexivity|].
  cbn in H. apply andb_prop in H as [Hc Hs]. cbn [re_split_lower].
  apply negb_true_iff in Hc. rewrite Hc. now rewrite (IH false Hs).
Qed.

Lemma re_split_lower_several s :
  lower_free s = false -> exists p q ps, re_split_lower false s = p :: q :: ps.
Proof.
  induction s as [|ch s IH]; intros H; [discriminate|].
  cbn in H. cbn [re_split_lower]. destruct (is_lower ch) eqn:Hc.
  - destruct (re_split_lower_cons true s) as (q & ps & ->). eauto.
  - cbn in H. destruct (IH H) as (p & q & ps & ->). eauto.
Qed.

Lemma re_split_lower_head p ch t :
  lower_free p = true -> is_lower ch = true ->
  re_split_lower false (p +:+ String ch t) = p :: re_split_lower true t.
Proof.
  intros Hp Hc. induction p as [|d p IH]; simpl.
  - now rewrite Hc.
  - cbn in Hp. apply andb_prop in Hp as [Hd Hp]. apply negb_true_iff in Hd.
    rewrite Hd, (IH Hp). reflexivity.
Qed.

Lemma re_split_lower_run l t :
  all_lower l = true -> re_split_lower true (l +:+ t) = re_split_lower true t.
Proof.
  induction l as [|d l IH]; intros Hl; [reflexivity|].
  cbn in Hl. apply andb_prop in Hl as [Hd Hl]. simpl.
  now rewrite Hd, (IH Hl).
Qed.

(** what is left after a piece: nothing, or a lower-case letter first *)
Lemma re_split_lower_piece s p ps :
  re_split_lower false s = p :: ps ->
  exists v, s = p +:+ v /\ lower_free p = true
            /\ (v = EmptyString \/ exists ch v', v = String ch v' /\ is_lower ch = true).
Proof.
  revert p ps. induction s as [|ch s IH]; intros p ps; simpl.
  - intros [= <- <-]. exists EmptyString. auto.
  - destruct (is_lower ch) eqn:Hc.
    + intros [= <- <-]. exists (String ch s). repeat split; eauto.
    + destruct (re_split_lower false s) as [|p0 ps0] eqn:Hs.
      * destruct (re_split_lower_cons false s) as (? & ? & ?); congruence.
      * intros [= <- <-]. destruct (IH _ _ eq_refl) as (v & -> & Hp & Hv).
        exists v. repeat split; auto. cbn. now rewrite Hc, Hp.
Qed.

Lemma re_split_lower_after_run s q ps :
  re_split_lower true s = q :: ps ->
  exists l v, s = l +:+ q +:+ v /\ all_lower l = true /\ lower_free q = true
              /\ (q = EmptyString -> v = EmptyString)
              /\ (v = EmptyString \/ exists ch v', v = String ch v' /\ is_lower ch = true).
Proof.
  revert q ps. induction s as [|ch s IH]; intros q ps; simpl.
  - intros [= <- <-]. exists EmptyString, EmptyString. repeat split; auto.
  - destruct (is_lower ch) eqn:Hc.
    + intros H. destruct (IH _ _ H) as (l & v & -> & Hl & Hq & He & Hv).
      exists (String ch l), v. repeat split; auto. cbn. now rewrite Hc, Hl.
    + intros H.
      destruct (re_split_lower_piece (String ch s) q ps) as (v & Hs & Hq & Hv).
      { simpl. now rewrite Hc. }
      exists EmptyString, v. repeat split; auto.
      intros ->. destruct (re_split_lower false s); discriminate H.
Qed.

Lemma re_split_lower_second s p q ps :
  re_split_lower false s = p :: q :: ps ->
  exists l v, s = p +:+ l +:+ q +:+ v /\ lower_free p = true
              /\ l <> EmptyString /\ all_lower l = true /\ lower_free q = true
              /\ (q = EmptyString -> v = EmptyString)
              /\ (v = EmptyString \/ exists ch v', v = String ch v' /\ is_lower ch = true).
Proof.
  revert p. induction s as [|ch s IH]; intros p; simpl; [discriminate|].
  destruct (is_lower ch) eqn:Hc.
  - intros [= <- H].
    destruct (re_split_lower_after_run _ _ _ H) as (l & v & -> & Hl & Hq & He & Hv).
    exists (String ch l), v. repeat split; auto; first [discriminate | cbn; now rewrite Hc, Hl].
  - destruct (re_split_lower false s) as [|p0 ps0] eqn:Hs; [discriminate|].
    intros [= <- ->].
    destruct (IH _ eq_refl) as (l & v & -> & Hp & Hne & Hl & Hq & He & Hv).
    exists l, v. repeat split; auto. cbn. now rewrite Hc, Hp.
Qed.

(** the piece that follows a run of lower-case letters *)
Lemma re_split_lower_stretch x v :
  lower_free x = true ->
  (x = EmptyString -> v = EmptyString) ->
  (v = EmptyString \/ exists ch v', v = String ch v' /\ is_lower ch = true) ->
  exists ps, re_split_lower true (x +:+ v) = x :: ps.
Proof.
  intros Hx He Hv. destruct x as [|d x].
  - rewrite (He eq_refl). now exists [].
  - cbn in Hx. apply andb_prop in Hx as [Hd Hx]. apply negb_true_iff in Hd.
    rewrite append_cons. simpl. rewrite Hd.
    destruct Hv as [->|(ch & v' & -> & Hc)].
    + rewrite append_empty_r, (re_split_lower_whole false x Hx). now exists [].
    + rewrite (re_split_lower_head x ch v' Hx Hc). eauto.
Qed.

(** X1: an agent id without lower-case letters is its own suffix after
    [;agent=].  Whenever an agent id reads [p l x v] with [p] free of
    lower-case letters, [l] its first run of lower-case letters (what follows
    [l] does not begin with one) and [x] the longest stretch without
    lower-case letters after it ([v] is empty or begins with a lower-case
    letter), the suffix is [;agent=] followed by [x]; and every agent id with
    a lower-case letter reads that way. *)
Theorem event_suffix_is_the_piece_after_the_letters agent_id :
  let splits p l x v :=
    agent_id = p +:+ l +:+ x +:+ v
    /\ lower_free p = true
    /\ l <> EmptyString /\ all_lower l = true
    /\ lower_free x = true
    /\ (x = EmptyString -> v = EmptyString)
    /\ (v = EmptyString \/ exists ch v', v = String ch v' /\ is_lower ch = true) in
  (lower_free agent_id = true -> _get_event_suffix agent_id = ";agent=" +:+ agent_id)
  /\ (forall p l x v, splits p l x v -> _get_event_suffix agent_id = ";agent=" +:+ x)
  /\ (lower_free agent_id = false -> exists p l x v, splits p l x v).
Proof.
  cbn zeta. split; [|split].
  - intros Hl. unfold _get_event_suffix, re_split.
    rewrite (re_split_lower_whole false agent_id Hl).
    now rewrite bool_decide_eq_false_2 by (cbn; lia).
  - intros p l x v (-> & Hp & Hne & Hl & Hx & He & Hv).
    unfold _get_event_suffix, re_split.
    destruct l as [|ch l]; [done|]. cbn in Hl. apply andb_prop in Hl as [Hc Hl].
    change (String ch l +:+ x +:+ v) with (String ch (l +:+ x +:+ v)).
    rewrite (re_split_lower_head p ch (l +:+ x +:+ v) Hp Hc).
    rewrite (re_split_lower_run l (x +:+ v) Hl).
    destruct (re_split_lower_stretch x v Hx He Hv) as (ps & ->).
    now rewrite bool_decide_eq_true_2 by (cbn; lia).
  - intros Hl. destruct (re_split_lower_several agent_id Hl) as (p & q & ps & Hs).
    destruct (re_split_lower_second _ _ _ _ Hs)
      as (l & v & Heq & Hp & Hne & Hll & Hq & He & Hv).
    exists p, l, q, v. auto 10.
Qed.

Lemma event_suffix_is_the_piece_after_the_letters_witness :
  _get_event_suffix "ab1c" = ";agent=1" /\ _get_event_suffix "42" = ";agent=42".
Proof.
  destruct (event_suffix_is_the_piece_after_the_letters "ab1c") as (_ & H & _).
  destruct (event_suffix_is_the_piece_after_the_letters "42") as (H' & _).
  split.
  - apply (H EmptyString "ab" "1" "c").
    repeat split; try reflexivity; try discriminate. right. now exists "c"%char, EmptyString.
  - now apply H'.
Defined.

(** X2: for an agent id made of a prefix without lower-case letters, one
    run of lower-case letters and a rest without lower-case letters (such as
    [1a5]), the suffix is [;agent=] followed by the rest. *)
Theorem event_suffix_of_typed_id p l r :
  lower_free p = true -> all_lower l = true -> l <> EmptyString ->
  lower_free r = true ->
  _get_event_suffix (p +:+ l +:+ r) = ";agent=" +:+ r.
Proof.
  intros Hp Hl Hne Hr. unfold _get_event_suffix, re_split.
  destruct l as [|ch l]; [done|]. cbn in Hl. apply andb_prop in Hl as [Hc Hl].
  change (String ch l +:+ r) with (String ch (l +:+ r)).
  rewrite (re_split_lower_head p ch (l +:+ r) Hp Hc).
  rewrite (re_split_lower_run l r Hl), (re_split_lower_whole true r Hr).
  reflexivity.
Qed.

Lemma event_suffix_of_typed_id_witness : _get_event_suffix "1a5" = ";agent=5".
Proof.
  apply (event_suffix_of_typed_id "1" "a" "5"); [reflexivity..|discriminate|reflexivity].
Defined.

(** X3: the object that [_data] serialises has the key [eventNames] and,
    exactly when an agent id is given, the key [agentId]; [eventNames] lists
    the requested names in their order, each followed by the suffix of the
    agent id when there is one and unchanged otherwise. *)
Theorem data_namespaces_every_event dumps events agent_id :
  let suffix := match agent_id with
                | Some a => _get_event_suffix a
                | None => EmptyString
                end in
  exists event : gmap string json,
    _data dumps events agent_id = dumps event
    /\ dom event = match agent_id with
                   | Some _ => {["agentId"; "eventNames"]}
                   | None => {["eventNames"]}
                   end
    /\ event !! "agentId" = JStr <$> agent_id
    /\ event !! "eventNames" = Some (JList (map (fun x => JStr (x +:+ suffix)) events)).
Proof.
  intros suffix. unfold _data. destruct agent_id as [a|]; cbn zeta.
  - eexists. split; [reflexivity|]. split; [|split].
    + rewrite !dom_insert_L, dom_empty_L. set_solver.
    + rewrite lookup_insert_ne by discriminate. apply lookup_insert_eq.
    + apply lookup_insert_eq.
  - eexists. split; [reflexivity|]. split; [|split].
    + rewrite !dom_insert_L, dom_empty_L. set_solver.
    + rewrite lookup_insert_ne by discriminate. apply lookup_empty.
    + rewrite lookup_insert_eq. do 2 f_equal. apply map_ext. intros x.
      now rewrite append_empty_r.
Qed.

(** ** Constructor of the client *)

Lemma length_append_str a b :
  String.length (a +:+ b) = (String.length a + String.length b)%nat.
Proof. induction a as [|ch a IH]; [reflexivity|]. rewrite append_cons. simpl. congruence. Qed.

Lemma str_take_drop n s : str_take n s +:+ str_drop n s = s.
Proof.
  revert s. induction n as [|n IH]; intros [|ch s]; try reflexivity.
  simpl. rewrite append_cons. f_equal. apply IH.
Qed.

Lemma str_take_append a b : str_take (String.length a) (a +:+ b) = a.
Proof. induction a as [|ch a IH]; [now destruct b|]. rewrite append_cons. simpl. congruence. Qed.

Lemma str_drop_append a b : str_drop (String.length a) (a +:+ b) = b.
Proof. induction a as [|ch a IH]; [now destruct b|]. rewrite append_cons. simpl. exact IH. Qed.

Lemma endswith_append base suffix : endswith (base +:+ suffix) suffix = true.
Proof.
  unfold endswith. rewrite length_append_str.
  rewrite bool_decide_eq_true_2 by lia.
  replace (String.length base + String.length suffix - String.length suffix)%nat
    with (String.length base) by lia.
  rewrite str_drop_append. cbn. apply String.eqb_refl.
Qed.

Lemma endswith_split s suffix :
  endswith s suffix = true ->
  s = str_take (String.length s - String.length suffix) s +:+ suffix.
Proof.
  unfold endswith. set (n := (String.length s - String.length suffix)%nat).
  intros H. apply andb_prop in H as [_ H]. apply String.eqb_eq in H.
  pose proof (str_take_drop n s) as E. rewrite H in E. now symmetry.
Qed.

(** X4: the subscribe address and the publish address are built on the
    same base: the given address without one trailing [/schemas] when it has
    one, the given address itself otherwise. *)
Theorem subscribe_and_publish_share_the_base url a workers agent_id :
  let self := __init__ url a workers agent_id in
  exists base,
    _url self = base +:+ "/subscribe"
    /\ publisher_url self = base +:+ "/publish"
    /\ (url = base +:+ "/schemas"
        \/ url = base /\ endswith url "/schemas" = false).
Proof.
  intros self. subst self. unfold __init__.
  destruct (endswith url "/schemas") eqn:He; cbn [_url publisher_url].
  - eexists. split; [reflexivity|]. split; [reflexivity|].
    left. now apply endswith_split.
  - exists url. auto.
Qed.

(** X5: a trailing [/schemas] is removed once: for every base, the client
    built on [base/schemas] subscribes at [base/subscribe] and publishes at
    [base/publish]. *)
Theorem schemas_address_is_rebased base a workers agent_id :
  let self := __init__ (base +:+ "/schemas") a workers agent_id in
  _url self = base +:+ "/subscribe" /\ publisher_url self = base +:+ "/publish".
Proof.
  cbn zeta. unfold __init__. rewrite endswith_append. cbn [_url publisher_url].
  rewrite length_append_str.
  replace (String.length base + String.length "/schemas" - String.length "/schemas")%nat
    with (String.length base) by lia.
  now rewrite str_take_append.
Qed.

(** ** Dispatcher: starting and stopping the children *)




Lemma lifecycle_app tr tr' : lifecycle (tr ++ tr') = lifecycle tr ++ lifecycle tr'.
Proof. unfold lifecycle. apply List.filter_app. Qed.

Lemma lifecycle_spawns l : lifecycle (map Spawn l) = map Spawn l.
Proof. induction l as [|x l IH]; [reflexivity|]. cbn. now f_equal. Qed.

Lemma lifecycle_terminates l : lifecycle (map Terminate l) = map Terminate l.
Proof. induction l as [|x l IH]; [reflexivity|]. cbn. now f_equal. Qed.

Lemma spawn_each (f : nat -> string) l s :
  for_each l (fun i => spawn (f i)) s
  = (inr tt,
     {| queue := queue s; ping_queue := ping_queue s;
        children := children s ++ map f l;
        drop_count := drop_count s; ping_drop := ping_drop s;
        _STAMP_TS := _STAMP_TS s; req := req s; uuid_count := uuid_count s;
        trace := trace s ++ map Spawn (map f l) |}).
Proof.
  revert s. induction l as [|i l IH]; intros s; cbn [for_each map].
  - rewrite !app_nil_r. now destruct s.
  - unfold bind, spawn, modify. cbn. rewrite IH. cbn. now rewrite <- !app_assoc.
Qed.

Lemma start_children_eq workers s :
  _start_children workers s
  = (inr tt,
     {| queue := queue s; ping_queue := ping_queue s;
        children := children s ++ child_names workers;
        drop_count := drop_count s; ping_drop := ping_drop s;
        _STAMP_TS := _STAMP_TS s; req := req s; uuid_count := uuid_count s;
        trace := trace s ++ map Spawn (child_names workers) |}).
Proof.
  unfold _start_children, child_names.
  rewrite (bind_run _ _ _ _ _ (spawn_each (fun i => "worker" +:+ PyStr.of_nat i) _ s)).
  unfold spawn, modify. rewrite map_app, !app_assoc. reflexivity.
Qed.

Lemma terminate_one h child s :
  try_except
    (modify (emit (Terminate child)) ;;
     match terminate h child with Some e => raise e | None => ret tt end)
    (fun _ => ret tt) s
  = (inr tt, emit (Terminate child) s).
Proof. unfold try_except, bind, modify, raise, ret. now destruct (terminate h child). Qed.

Lemma terminate_each h l s :
  exists s',
    for_each l
      (fun child =>
         if has_terminate h child
         then try_except
                (modify (emit (Terminate child)) ;;
                 match terminate h child with Some e => raise e | None => ret tt end)
                (fun _ => ret tt)
         else ret tt) s = (inr tt, s')
    /\ only_emits s s' (map Terminate (List.filter (has_terminate h) l)).
Proof.
  revert s. induction l as [|child l IH]; intros s; cbn [for_each List.filter].
  - eexists. split; [reflexivity|]. unfold only_emits. cbn. rewrite app_nil_r. now destruct s.
  - destruct (has_terminate h child).
    + rewrite (bind_run _ _ _ _ _ (terminate_one h child s)).
      destruct (IH (emit (Terminate child) s)) as (s' & Hs' & Hem).
      exists s'. split; [exact Hs'|].
      unfold only_emits in *. rewrite Hem. cbn. now rewrite <- app_assoc.
    + unfold bind at 1. cbn [ret]. apply IH.
Qed.

Lemma terminate_children_emits h s :
  exists s', terminate_children h s = (inr tt, s')
             /\ only_emits s s' (map Terminate (List.filter (has_terminate h) (children s))).
Proof. unfold terminate_children. unfold bind at 1. cbn [get]. apply terminate_each. Qed.

Lemma run_unfold c h a workers ppid post s :
  (forall tok, a <> Token tok) ->
  _run c h a workers ppid post s
  = bind (try_finally (_run_try c workers ppid post) (terminate_children h))
      (fun _ => raise (SystemExit 0)) s.
Proof. intros Ha. unfold _run, _run_try. destruct a; try reflexivity. now destruct (Ha t). Qed.

Lemma run_try_eq c workers ppid post s :
  _run_try c workers ppid post s
  = match post with
    | inl e => (inl e, set_ping_drop 0 (set_drop_count 0 s))
    | inr r =>
        if bool_decide (status_code r = 201)
        then _run_loop c ppid (iter_lines r) (broken r) (loop_start workers s)
        else (inl (Error (PyStr.of_Z (status_code r) +:+ " : " +:+ text r)),
              set_ping_drop 0 (set_drop_count 0 s))
    end.
Proof.
  unfold _run_try. unfold bind at 1. unfold modify at 1.
  unfold bind at 1. unfold modify at 1. unfold bind at 1.
  destruct post as [e|r]; cbn [lift raise ret]; [reflexivity|].
  destruct (decide (status_code r = 201)) as [H|H].
  - rewrite bool_decide_eq_false_2 by (intros H'; now apply H').
    rewrite bool_decide_eq_true_2 by exact H.
    rewrite (bind_run _ _ _ _ _ (start_children_eq workers _)). reflexivity.
  - rewrite bool_decide_eq_true_2 by exact H.
    rewrite bool_decide_eq_false_2 by exact H. reflexivity.
Qed.

(** [_run] as its [try] body followed by the [finally] clause *)
Lemma run_finish c h a workers ppid post s res sb :
  (forall tok, a <> Token tok) ->
  _run_try c workers ppid post s = (res, sb) ->
  exists s',
    _run c h a workers ppid post s
    = (inl (match res with inl e => e | inr _ => SystemExit 0 end), s')
    /\ only_emits sb s' (map Terminate (List.filter (has_terminate h) (children sb))).
Proof.
  intros Ha Hb. rewrite run_unfold by exact Ha.
  destruct (terminate_children_emits h sb) as (s' & Ht & He).
  exists s'. split; [|exact He].
  unfold bind. rewrite (try_finally_run _ _ _ _ _ _ _ Hb Ht). now destruct res.
Qed.

Section reader_frame.
Context (c : Config) (ppid : option string).

Ltac line_cases :=
  apply run_line_cases; intros; unfold line_end, dropped;
  repeat match goal with
    | |- context [if alive_now ?a ?b ?d ?e then _ else _] => destruct (alive_now a b d e)
    | |- context [if bool_decide ?P then _ else _] => destruct (bool_decide P)
    | |- context [if PyStr.contains ?a ?b then _ else _] => destruct (PyStr.contains a b)
    end; cbn.

Lemma run_line_frame t s :
  let s' := snd (_run_line c ppid t s) in
  children s' = children s
  /\ lifecycle (trace s') = lifecycle (trace s)
  /\ published (trace s') = published (trace s)
  /\ req s' = req s /\ uuid_count s' = uuid_count s
  /\ (forall t0, _STAMP_TS s = Some t0 -> _STAMP_TS s' = Some t0).
Proof.
  cbn zeta. line_cases;
    rewrite ?lifecycle_app, ?published_snoc; cbn; rewrite ?app_nil_r;
    repeat split; auto; intros t0 Ht; rewrite Ht; reflexivity.
Qed.

Lemma run_loop_result lines stop s :
  exists res s', _run_loop c ppid lines stop s = (res, s').
Proof. destruct (_run_loop c ppid lines stop s); eauto. Qed.

Lemma run_loop_frame lines stop s :
  let s' := snd (_run_loop c ppid lines stop s) in
  children s' = children s
  /\ lifecycle (trace s') = lifecycle (trace s)
  /\ published (trace s') = published (trace s)
  /\ req s' = req s /\ uuid_count s' = uuid_count s
  /\ (forall t0, _STAMP_TS s = Some t0 -> _STAMP_TS s' = Some t0).
Proof.
  revert s. induction lines as [|t lines IH]; intros s; cbn [_run_loop].
  - destruct stop; cbn; auto 10.
  - pose proof (run_line_frame t s) as Hf.
    destruct (run_line_returns c ppid t s) as (r & s1 & Hr).
    rewrite (bind_run _ _ _ _ _ Hr). rewrite Hr in Hf. cbn in Hf.
    destruct Hf as (H1 & H2 & H3 & H4 & H5 & H6).
    destruct r; cbn; [|auto 10].
    destruct (IH s1) as (K1 & K2 & K3 & K4 & K5 & K6). cbn zeta.
    rewrite K1, K2, K3, K4, K5. auto 10.
Qed.

Lemma run_line_counters t s :
  counters_within (drop_bound c) s ->
  match fst (_run_line c ppid t s) with
  | inr Continue => counters_within (drop_bound c) (snd (_run_line c ppid t s))
  | _ => counters_within (drop_bound c + 1) (snd (_run_line c ppid t s))
  end.
Proof.
  unfold counters_within, drop_bound. intros (H1 & H2 & H3).
  apply run_line_cases; intros; unfold line_end, dropped, drop_limit.
  - destruct (alive_now _ _ _ _); cbn; lia.
  - destruct (PyStr.contains _ _), (alive_now _ _ _ _); cbn; lia.
  - unfold drop_limit. destruct (PyStr.contains _ _);
      (destruct (bool_decide _) eqn:Hb;
       [apply bool_decide_eq_true_1 in Hb | apply bool_decide_eq_false_1 in Hb]);
      cbn; try (destruct (alive_now _ _ _ _); cbn); lia.
Qed.

Lemma run_loop_counters lines stop s :
  counters_within (drop_bound c) s ->
  counters_within (drop_bound c + 1) (snd (_run_loop c ppid lines stop s)).
Proof.
  assert (Hweak : forall x, counters_within (drop_bound c) x ->
                            counters_within (drop_bound c + 1) x)
    by (unfold counters_within; intros x (? & ? & ?); lia).
  revert s. induction lines as [|t lines IH]; intros s Hs; cbn [_run_loop].
  - destruct stop; cbn; auto.
  - pose proof (run_line_counters t s Hs) as Hc.
    destruct (run_line_returns c ppid t s) as (r & s1 & Hr).
    rewrite (bind_run _ _ _ _ _ Hr). rewrite Hr in Hc. cbn in Hc.
    destruct r; cbn; auto.
Qed.

End reader_frame.


(** X7: with a fresh client, [_run] spawns children exactly when the
    handshake is answered with status 201, and then, however the run ends
    (overload, failed liveness, end of the stream or an exception of the line
    iterator), every child that has [terminate] is sent it once, in the
    order of the spawns, even where a [terminate] raises; the handles have no
    influence on how [_run] ends. *)
Theorem every_started_child_is_terminated c h a workers ppid post s :
  (forall tok, a <> Token tok) ->
  children s = [] ->
  let out := _run c h a workers ppid post s in
  lifecycle (trace (snd out))
  = lifecycle (trace s)
    ++ (if subscribed post
        then map Spawn (child_names workers)
             ++ map Terminate (List.filter (has_terminate h) (child_names workers))
        else [])
  /\ (forall h', fst (_run c h' a workers ppid post s) = fst out).
Proof.
  intros Ha Hc out. subst out.
  destruct (_run_try c workers ppid post s) as [res sb] eqn:Hb.
  destruct (run_finish c h a workers ppid post s res sb Ha Hb) as (s' & Hr & He).
  split.
  - rewrite Hr. cbn [snd]. rewrite He. cbn [trace].
    rewrite lifecycle_app, lifecycle_terminates.
    rewrite run_try_eq in Hb. unfold subscribed.
    destruct post as [e|r].
    + injection Hb as <- <-. cbn. now rewrite Hc, !app_nil_r.
    + destruct (bool_decide (status_code r = 201)).
      * pose proof (run_loop_frame c ppid (iter_lines r) (broken r) (loop_start workers s))
          as (K1 & K2 & _).
        rewrite Hb in K1, K2. cbn in K1, K2. rewrite K1, K2, Hc. cbn.
        now rewrite lifecycle_app, lifecycle_spawns, <- app_assoc.
      * injection Hb as <- <-. cbn. now rewrite Hc, !app_nil_r.
  - intros h'.
    destruct (run_finish c h' a workers ppid post s res sb Ha Hb) as (s'' & Hr' & _).
    now rewrite Hr, Hr'.
Qed.

Lemma every_started_child_is_terminated_witness :
  lifecycle (trace (snd (_run Scenario.cfg Scenario.processes NoAuth 2 None
                           (inr Scenario.cut_off) boot)))
  = [Spawn "worker0"; Spawn "worker1"; Spawn "ping";
     Terminate "worker0"; Terminate "worker1"; Terminate "ping"].
Proof.
  apply (every_started_child_is_terminated Scenario.cfg Scenario.processes NoAuth 2 None
           (inr Scenario.cut_off) boot); [discriminate | reflexivity].
Defined.

(** X8: at the end of [_run] the counters satisfy
    [0 <= ping_drop <= drop_count <= max(0, both limits) + 1]: a run never
    drops more than one line beyond the larger limit. *)
Theorem dropped_lines_are_bounded c h a workers ppid post s :
  (forall tok, a <> Token tok) ->
  counters_within (drop_bound c + 1) (snd (_run c h a workers ppid post s)).
Proof.
  intros Ha.
  destruct (_run_try c workers ppid post s) as [res sb] eqn:Hb.
  destruct (run_finish c h a workers ppid post s res sb Ha Hb) as (s' & Hr & He).
  rewrite Hr. cbn [snd]. rewrite He. unfold counters_within. cbn.
  assert (H0 : 0 <= drop_bound c) by (unfold drop_bound; lia).
  rewrite run_try_eq in Hb. destruct post as [e|r].
  - injection Hb as <- <-. cbn. lia.
  - destruct (bool_decide (status_code r = 201)).
    + pose proof (run_loop_counters c ppid (iter_lines r) (broken r)
                    (loop_start workers s)) as Hk.
      rewrite Hb in Hk. apply Hk. unfold counters_within. cbn. lia.
    + injection Hb as <- <-. cbn. lia.
Qed.

Lemma dropped_lines_are_bounded_witness :
  counters_within (10 + 1)
    (snd (_run Scenario.cfg Scenario.processes NoAuth 2 None
            (inr (Scenario.answer 201 "Created")) boot)).
Proof.
  apply (dropped_lines_are_bounded Scenario.cfg Scenario.processes NoAuth 2 None
           (inr (Scenario.answer 201 "Created")) boot).
  discriminate.
Defined.

(** ** Reader: what is enqueued *)

Section strip_shape.
Import PyStr.

Lemma lstrip_blank s : all_space s = true -> lstrip s = EmptyString.
Proof.
  induction s as [|ch s IH]; [reflexivity|]. cbn. intros H.
  apply andb_prop in H as [Hc Hs]. rewrite Hc. now apply IH.
Qed.

Lemma strip_blank_line s : all_space s = true -> strip s = EmptyString.
Proof. intros H. unfold strip. now rewrite lstrip_blank. Qed.

Lemma lstrip_split s : exists a, s = a +:+ lstrip s /\ all_space a = true.
Proof.
  induction s as [|ch s (a & Ha & Hs)]; [now exists EmptyString|].
  cbn [lstrip]. destruct (is_space ch) eqn:Hc.
  - exists (String ch a). rewrite append_cons, <- Ha. split; [reflexivity|].
    cbn. now rewrite Hc, Hs.
  - now exists EmptyString.
Qed.

Lemma rstrip_split s : exists b, s = rstrip s +:+ b /\ all_space b = true.
Proof.
  induction s as [|ch s (b & Hb & Hs)]; [now exists EmptyString|].
  cbn [rstrip]. destruct (is_space ch && is_empty (rstrip s)) eqn:Hc.
  - apply andb_prop in Hc as [Hc He]. exists (String ch s). split; [reflexivity|].
    destruct (rstrip s); [|discriminate]. change (s = b) in Hb. subst b.
    cbn. now rewrite Hc, Hs.
  - exists b. rewrite append_cons, <- Hb. auto.
Qed.

Lemma rstrip_keeps_head s :
  rstrip s = EmptyString \/ starts_solid (rstrip s) = starts_solid s.
Proof.
  destruct s as [|ch s]; [now left|]. cbn [rstrip].
  destruct (is_space ch && is_empty (rstrip s)); [now left|now right].
Qed.

(** The stripped line is the line without a white prefix and a white
    suffix, and is empty or begins and ends with other characters. *)
Lemma strip_shape s :
  exists a b,
    s = a +:+ strip s +:+ b /\ all_space a = true /\ all_space b = true
    /\ (strip s = EmptyString
        \/ starts_solid (strip s) = true /\ ends_solid (strip s) = true).
Proof.
  destruct (lstrip_split s) as (a & Ha & Hsa).
  destruct (rstrip_split (lstrip s)) as (b & Hb & Hsb).
  exists a, b. unfold strip. repeat split; auto.
  - now rewrite <- Hb.
  - destruct (rstrip_last (lstrip s)) as [He|He]; [now left|]. right. split; [|exact He].
    destruct (rstrip_keeps_head (lstrip s)) as [Hk|Hk].
    + rewrite Hk in He. discriminate.
    + rewrite Hk. destruct (lstrip_head s) as [Hl|Hl]; [|exact Hl].
      rewrite Hl in He. discriminate.
Qed.

Lemma prefix_occurs n s : String.prefix n s = true <-> exists q, s = n +:+ q.
Proof.
  revert s. induction n as [|ch n IH]; intros s.
  - split; [intros _; now exists s | now destruct s].
  - destruct s as [|d s]; cbn.
    + split; [discriminate | intros (q & Hq); discriminate].
    + destruct (ascii_dec ch d) as [->|Hne].
      * rewrite IH. split; intros (q & Hq); exists q.
        -- now rewrite append_cons, <- Hq.
        -- rewrite append_cons in Hq. now injection Hq.
      * split; [discriminate|]. intros (q & Hq). rewrite append_cons in Hq.
        injection Hq as -> _. now destruct Hne.
Qed.

(** [needle in s] holds exactly when [needle] occurs in [s]. *)
Lemma contains_occurs n s :
  contains n s = true <-> exists p q, s = p +:+ n +:+ q.
Proof.
  induction s as [|ch s IH]; cbn [contains].
  - rewrite orb_false_r, prefix_occurs. split.
    + intros (q & Hq). now exists EmptyString, q.
    + intros (p & q & Hq). destruct p; [now exists q|discriminate].
  - rewrite orb_true_iff, prefix_occurs, IH. split.
    + intros [(q & Hq) | (p & q & Hq)].
      * now exists EmptyString, q.
      * exists (String ch p), q. now rewrite append_cons, <- Hq.
    + intros (p & q & Hq). destruct p as [|d p].
      * left. now exists q.
      * right. rewrite append_cons in Hq. injection Hq as -> Hq. now exists p, q.
Qed.

End strip_shape.

(** X9: a line made of white space only is skipped: nothing is enqueued,
    no counter moves, and the turn ends with the liveness check alone. *)
Theorem blank_lines_are_skipped c ppid t s :
  all_space (raw t) = true ->
  let r := _run_line c ppid t s in
  queue (snd r) = queue (workers_take t s)
  /\ ping_queue (snd r) = ping_queue (workers_take t s)
  /\ drop_count (snd r) = drop_count s
  /\ ping_drop (snd r) = ping_drop s
  /\ fst r = inr (if alive_now c (tick_view t) ppid (_STAMP_TS s) then Continue else Break).
Proof.
  intros Hb r. subst r. rewrite run_line_skip by now apply strip_blank_line.
  destruct (line_end_keeps c ppid t (workers_take t s)) as (-> & -> & -> & -> & _ & ->).
  auto.
Qed.

Lemma blank_lines_are_skipped_witness :
  let r := _run_line Scenario.cfg None (Scenario.arrives "   ") Scenario.pending in
  queue (snd r) = ["{}"] /\ drop_count (snd r) = 0 /\ fst r = inr Continue.
Proof.
  destruct (blank_lines_are_skipped Scenario.cfg None (Scenario.arrives "   ")
              Scenario.pending eq_refl) as (H1 & _ & H3 & _ & H5).
  auto.
Defined.

(** X10: when the liveness check fails at a line, that line is the last
    one read: the loop ends there whatever follows in the stream, an
    exception of the iterator included. *)
Theorem stale_reader_stops_at_once c ppid t rest stop s :
  alive_now c (tick_view t) ppid (_STAMP_TS s) = false ->
  _run_loop c ppid (t :: rest) stop s = (inr tt, snd (_run_line c ppid t s)).
Proof.
  intros Hd. cbn [_run_loop].
  assert (Hr : fst (_run_line c ppid t s) = inr Break).
  { apply run_line_cases; intros; unfold line_end, dropped;
      repeat match goal with
        | |- context [if bool_decide ?P then _ else _] => destruct (bool_decide P)
        | |- context [if PyStr.contains ?a ?b then _ else _] => destruct (PyStr.contains a b)
        end; cbn; rewrite ?Hd; reflexivity. }
  destruct (_run_line c ppid t s) as [r s1] eqn:Hl. cbn in Hr. subst r.
  now rewrite (bind_run _ _ _ _ _ Hl).
Qed.

Lemma stale_reader_stops_at_once_witness :
  let gone := {| raw := "a"; taken := 0; ping_taken := 0;
                 tick_view := {| path_exists := fun _ => false;
                                 getmtime := fun _ => 0 |} |} in
  queue (snd (_run_loop Scenario.cfg (Some "4711")
                (gone :: map Scenario.arrives ["b"; "c"])
                (Some (Error "reset")) (set_queue_of DataQ [] (set_STAMP_TS (Some 10) boot))))
  = ["a"].
Proof.
  intros gone.
  rewrite (stale_reader_stops_at_once Scenario.cfg (Some "4711") gone
             (map Scenario.arrives ["b"; "c"]) (Some (Error "reset"))
             (set_queue_of DataQ [] (set_STAMP_TS (Some 10) boot))); reflexivity.
Defined.

(** X11: a turn of the reader enqueues nothing, or exactly one item: the
    line received without the white space around it, which then begins and
    ends with other characters; the item goes to the ping queue when the
    heartbeat marker occurs somewhere in the line received and to the data
    queue when it occurs nowhere. *)
Theorem enqueued_item_is_the_stripped_line c ppid t s :
  let s1 := workers_take t s in
  let s' := snd (_run_line c ppid t s) in
  (queue s' = queue s1 /\ ping_queue s' = ping_queue s1)
  \/ (exists a line b,
        raw t = a +:+ line +:+ b
        /\ all_space a = true /\ all_space b = true
        /\ PyStr.starts_solid line = true /\ PyStr.ends_solid line = true
        /\ ((exists p q, raw t = p +:+ PING +:+ q)
            /\ ping_queue s' = ping_queue s1 ++ [line] /\ queue s' = queue s1
            \/ ~ (exists p q, raw t = p +:+ PING +:+ q)
               /\ queue s' = queue s1 ++ [line] /\ ping_queue s' = ping_queue s1)).
Proof.
  intros s1 s'. pose proof (run_line_routing c ppid t s) as Hr. cbn zeta in Hr.
  fold s1 s' in Hr.
  destruct (strip_shape (raw t)) as (a & b & Heq & Ha & Hb & Hsolid).
  destruct (PyStr.contains PING (raw t)) eqn:Hk.
  - destruct Hr as (Hq & Hp). destruct (bool_decide _); [|now left]. right.
    exists a, (PyStr.strip (raw t)), b.
    destruct Hsolid as [He|[H1 H2]].
    + rewrite <- contains_PING_strip, He in Hk. discriminate.
    + repeat split; auto. left. repeat split; auto. now apply contains_occurs.
  - destruct Hr as (Hp & Hq). destruct (bool_decide _) eqn:Hd; [|now left]. right.
    apply bool_decide_eq_true_1 in Hd as [Hne _].
    exists a, (PyStr.strip (raw t)), b.
    destruct Hsolid as [He|[H1 H2]]; [contradiction|].
    repeat split; auto. right. repeat split; auto.
    intros Ho. apply contains_occurs in Ho. congruence.
Qed.

(** ** Worker: what a turn changes *)

Section worker_frame.
Context (c : Config) (E : collaborators) (worker_name : string) (q : qkind)
  (ppid : option string).

Lemma poll_eq s :
  poll c E ppid s
  = (inr (if alive_now c (view E) ppid (_STAMP_TS s) then Continue else Break),
     set_STAMP_TS (capture c (view E) (_STAMP_TS s)) s).
Proof. unfold poll, bind. now rewrite should_run_eq. Qed.

Lemma capture_keeps v cache t0 : cache = Some t0 -> capture c v cache = Some t0.
Proof. now intros ->. Qed.

Lemma worker_except_frame e sh :
  handler_frame sh (snd (_worker_except c E ppid e sh)).
Proof.
  unfold handler_frame. destruct e as [| |m|m|z].
  - cbn [_worker_except]. rewrite poll_eq. cbn.
    repeat split; auto using capture_keeps.
  - rewrite worker_except_unknown by reflexivity. cbn zeta.
    destruct (alive_now _ _ _ _); [destruct (req sh) as [r|]; [destruct (reply E r JNull)|]|];
      cbn; rewrite ?lifecycle_app; cbn; rewrite ?app_nil_r;
      repeat split; auto using capture_keeps.
  - destruct (req sh) as [r|] eqn:Hr.
    + rewrite (worker_except_locked c E ppid m r sh Hr). cbn.
      rewrite lifecycle_app. cbn. rewrite app_nil_r.
      repeat split; auto using capture_keeps.
    + cbn [_worker_except]. unfold bind, get. cbn. rewrite Hr. cbn. auto 10.
  - rewrite worker_except_unknown by reflexivity. cbn zeta.
    destruct (alive_now _ _ _ _); [destruct (req sh) as [r|]; [destruct (reply E r JNull)|]|];
      cbn; rewrite ?lifecycle_app; cbn; rewrite ?app_nil_r;
      repeat split; auto using capture_keeps.
  - cbn. auto 10.
Qed.

(** the [try] block: the head of the queue is taken, the cache is not
    touched *)
Lemma worker_try_frame s :
  let sh := snd (_worker_try E worker_name q s) in
  queue_of q sh = drop 1 (queue_of q s)
  /\ queue_of (other q) sh = queue_of (other q) s
  /\ children sh = children s
  /\ drop_count sh = drop_count s
  /\ ping_drop sh = ping_drop s
  /\ lifecycle (trace sh) = lifecycle (trace s)
  /\ _STAMP_TS sh = _STAMP_TS s
  /\ uuid_count sh = uuid_count s.
Proof.
  cbn zeta. destruct (queue_of q s) as [|line rest] eqn:Hq.
  - rewrite worker_try_empty by exact Hq. cbn. rewrite queue_of_set_req, Hq.
    destruct q; cbn; auto 10.
  - destruct (from_string E line) as [e|r] eqn:Hd.
    + rewrite (worker_try_undecoded E worker_name q s line rest e Hq Hd).
      destruct q; cbn in *; auto 10.
    + rewrite (worker_try_decoded E worker_name q s line rest r Hq Hd).
      destruct (execute E r) as [e|[resp|]]; destruct q; cbn in *;
        rewrite ?lifecycle_app; cbn; rewrite ?app_nil_r; auto 10.
Qed.

Lemma worker_turn_split s :
  _worker_turn c E worker_name q ppid s
  = match _worker_try E worker_name q s with
    | (inl e, sh) => _worker_except c E ppid e sh
    | (inr _, sh) => (inr Continue, sh)
    end.
Proof.
  unfold _worker_turn, try_except, bind.
  now destruct (_worker_try E worker_name q s) as [[e|[]] sh].
Qed.

Lemma worker_turn_frame s :
  worker_frame q s (snd (_worker_turn c E worker_name q ppid s)).
Proof.
  rewrite worker_turn_split.
  destruct (worker_try_frame s) as (T1 & T2 & T3 & T4 & T5 & T6 & T7 & _).
  destruct (_worker_try E worker_name q s) as [[e|u] sh]; cbn [snd] in *.
  - destruct (worker_except_frame e sh) as (H1 & H2 & H3 & H4 & H5 & H6 & H7).
    unfold worker_frame. rewrite H3, H4, H5, H6, T3, T4, T5, T6.
    repeat split; auto.
    + destruct q; cbn [queue_of] in *; congruence.
    + destruct q; cbn [queue_of other] in *; congruence.
    + intros t0 Ht. apply H7. congruence.
  - unfold worker_frame. repeat split; auto. intros t0 Ht. congruence.
Qed.

End worker_frame.

Section worker_loop.
Context (c : Config) (worker_name : string) (q : qkind) (ppid : option string).

Lemma worker_main_frame sched s :
  let s' := snd (_worker_main c worker_name q ppid sched s) in
  (exists k, (k <= length sched)%nat /\ queue_of q s' = drop k (queue_of q s))
  /\ queue_of (other q) s' = queue_of (other q) s
  /\ children s' = children s
  /\ drop_count s' = drop_count s
  /\ ping_drop s' = ping_drop s
  /\ lifecycle (trace s') = lifecycle (trace s)
  /\ (forall t0, _STAMP_TS s = Some t0 -> _STAMP_TS s' = Some t0).
Proof.
  revert s. induction sched as [|E sched IH]; intros s; cbn [_worker_main].
  - cbn. repeat split; auto. exists 0%nat. split; [lia|reflexivity].
  - destruct (worker_turn_frame c E worker_name q ppid s)
      as (H1 & H2 & H3 & H4 & H5 & H6 & H7).
    unfold bind.
    destruct (_worker_turn c E worker_name q ppid s) as [[e|r] s1]; cbn [snd] in *.
    + repeat split; auto. exists 1%nat. split; [cbn; lia|exact H1].
    + destruct r.
      * destruct (IH s1) as ((k & Hk & K1) & K2 & K3 & K4 & K5 & K6 & K7). cbn zeta.
        rewrite K2, K3, K4, K5, K6, H2, H3, H4, H5, H6. repeat split; auto.
        exists (S k). split; [cbn; lia|]. rewrite K1, H1. now rewrite drop_drop.
      * cbn. repeat split; auto. exists 1%nat. split; [cbn; lia|exact H1].
Qed.

Lemma worker_keeps_frame sched s :
  let s' := snd (_worker c worker_name q ppid sched s) in
  (exists k, (k <= length sched)%nat /\ queue_of q s' = drop k (queue_of q s))
  /\ queue_of (other q) s' = queue_of (other q) s
  /\ children s' = children s
  /\ drop_count s' = drop_count s
  /\ ping_drop s' = ping_drop s
  /\ lifecycle (trace s') = lifecycle (trace s)
  /\ (forall t0, _STAMP_TS s = Some t0 -> _STAMP_TS s' = Some t0).
Proof.
  pose proof (worker_main_frame sched s) as Hf. cbn zeta in *. unfold _worker.
  assert (Hlog : forall s1,
            (exists k, (k <= length sched)%nat /\ queue_of q s1 = drop k (queue_of q s))
            /\ queue_of (other q) s1 = queue_of (other q) s
            /\ children s1 = children s
            /\ drop_count s1 = drop_count s
            /\ ping_drop s1 = ping_drop s
            /\ lifecycle (trace s1) = lifecycle (trace s)
            /\ (forall t0, _STAMP_TS s = Some t0 -> _STAMP_TS s1 = Some t0) ->
            let s2 := emit (Log ERROR (worker_name +:+ " : Exiting")) s1 in
            (exists k, (k <= length sched)%nat /\ queue_of q s2 = drop k (queue_of q s))
            /\ queue_of (other q) s2 = queue_of (other q) s
            /\ children s2 = children s
            /\ drop_count s2 = drop_count s
            /\ ping_drop s2 = ping_drop s
            /\ lifecycle (trace s2) = lifecycle (trace s)
            /\ (forall t0, _STAMP_TS s = Some t0 -> _STAMP_TS s2 = Some t0)).
  { intros s1 (H1 & H2 & H3 & H4 & H5 & H6 & H7). cbn zeta.
    assert (Hq : forall q', queue_of q' (emit (Log ERROR (worker_name +:+ " : Exiting")) s1)
                            = queue_of q' s1) by now intros [].
    rewrite !Hq. cbn [children drop_count ping_drop _STAMP_TS trace emit].
    rewrite lifecycle_app, H6. cbn. rewrite app_nil_r. auto 10. }
  destruct (_worker_main c worker_name q ppid sched s) as [[e|[]] s1]; cbn [snd] in *;
    auto.
Qed.

End worker_loop.

(** X12: whatever the marshaller, the agent and the publisher do, a
    worker only ever takes items from the head of its own queue, at most one
    for each turn of its loop, and puts nothing back; it never touches the
    other queue, the children of the client or the drop counters of the
    reader. *)
Theorem worker_only_consumes_its_own_queue c worker_name q ppid sched s :
  let s' := snd (_worker c worker_name q ppid sched s) in
  (exists k, (k <= length sched)%nat /\ queue_of q s' = drop k (queue_of q s))
  /\ queue_of (other q) s' = queue_of (other q) s
  /\ children s' = children s
  /\ drop_count s' = drop_count s
  /\ ping_drop s' = ping_drop s.
Proof.
  destruct (worker_keeps_frame c worker_name q ppid sched s)
    as (H1 & H2 & H3 & H4 & H5 & _). cbn zeta. auto.
Qed.

(** X13: a request that is decoded and executed without fault is answered
    once: the response of the agent, when there is one and the publisher
    accepts it, is the only object published; the turn then goes on without
    any liveness check, so that the cache and the identifier count are left
    as they were, whatever the state of the marker and of the parent. *)
Theorem served_request_is_answered_once c E worker_name q ppid s line rest r answer :
  queue_of q s = line :: rest ->
  from_string E line = inr r ->
  execute E r = inr answer ->
  (forall resp, answer = Some resp -> publish E resp = None) ->
  let out := _worker_turn c E worker_name q ppid s in
  fst out = inr Continue
  /\ queue_of q (snd out) = rest
  /\ published (trace (snd out))
     = published (trace s) ++ match answer with Some resp => [resp] | None => [] end
  /\ _STAMP_TS (snd out) = _STAMP_TS s
  /\ uuid_count (snd out) = uuid_count s.
Proof.
  intros Hq Hd Hx Hp out. subst out. rewrite worker_turn_split.
  rewrite (worker_try_decoded E worker_name q s line rest r Hq Hd), Hx.
  destruct answer as [resp|].
  - rewrite (Hp resp eq_refl). destruct q; cbn; rewrite !published_snoc; cbn;
      rewrite ?app_nil_r; auto.
  - destruct q; cbn; rewrite !published_snoc; cbn; rewrite ?app_nil_r; auto.
Qed.

Lemma served_request_is_answered_once_witness :
  let E := Scenario.helpers (inr (Some Scenario.done)) (fun _ => None) Scenario.reply_to in
  let out := _worker_turn Scenario.cfg E "worker0" DataQ (Some "4711") Scenario.pending in
  fst out = inr Continue /\ published (trace (snd out)) = [Scenario.done].
Proof.
  intros E.
  destruct (served_request_is_answered_once Scenario.cfg E "worker0" DataQ (Some "4711")
              Scenario.pending "{}" [] Scenario.activate (Some Scenario.done)
              eq_refl eq_refl eq_refl (fun _ _ => eq_refl)) as (H1 & _ & H3 & _).
  auto.
Defined.

(** X14: a worker that finds its queue empty writes no log record and
    publishes nothing: it checks liveness, and goes on exactly when the
    check passes. *)
Theorem idle_worker_polls_liveness c E worker_name q ppid s :
  queue_of q s = [] ->
  let out := _worker_turn c E worker_name q ppid s in
  fst out = inr (if alive_now c (view E) ppid (_STAMP_TS s) then Continue else Break)
  /\ trace (snd out) = trace s
  /\ queue_of q (snd out) = [].
Proof.
  intros Hq out. subst out. rewrite worker_turn_split.
  rewrite worker_try_empty by exact Hq. cbn [_worker_except]. rewrite poll_eq.
  destruct q; cbn in *; auto.
Qed.

Lemma idle_worker_polls_liveness_witness :
  let out := _worker_turn Scenario.cfg Scenario.locked "ping" PingQ (Some "4711")
               Scenario.pending in
  fst out = inr Continue /\ trace (snd out) = [].
Proof.
  destruct (idle_worker_polls_liveness Scenario.cfg Scenario.locked "ping" PingQ
              (Some "4711") Scenario.pending eq_refl) as (H1 & H2 & _).
  split; [exact H1 | exact H2].
Defined.

Lemma contained_turn_continues c E worker_name q ppid s :
  contained E ->
  alive_now c (view E) ppid (_STAMP_TS s) = true ->
  fst (_worker_turn c E worker_name q ppid s) = inr Continue.
Proof.
  intros (Hpub & Hdec & Hexe) Hlive. rewrite worker_turn_split.
  destruct (queue_of q s) as [|line rest] eqn:Hq.
  - rewrite worker_try_empty by exact Hq. cbn [_worker_except]. rewrite poll_eq.
    change (_STAMP_TS (set_req None s)) with (_STAMP_TS s). now rewrite Hlive.
  - destruct (from_string E line) as [e|r] eqn:Hd.
    + rewrite (worker_try_undecoded E worker_name q s line rest e Hq Hd).
      specialize (Hdec line e Hd).
      set (sh := set_queue_of q rest (set_req None s)).
      assert (Hs : _STAMP_TS sh = _STAMP_TS s) by (subst sh; now destruct q).
      assert (Hreq : req sh = None) by (subst sh; now destruct q).
      destruct e; try contradiction.
      * cbn [_worker_except]. rewrite poll_eq. now rewrite Hs, Hlive.
      * rewrite worker_except_unknown by reflexivity. cbn zeta.
        now rewrite Hs, Hlive, Hreq.
      * rewrite worker_except_unknown by reflexivity. cbn zeta.
        now rewrite Hs, Hlive, Hreq.
    + rewrite (worker_try_decoded E worker_name q s line rest r Hq Hd).
      destruct (execute E r) as [e|[resp|]] eqn:Hx; [|now rewrite Hpub|reflexivity].
      specialize (Hexe r e Hx).
      set (sh := emit _ _).
      assert (Hreq : req sh = Some r) by (subst sh; now destruct q).
      assert (Hs : _STAMP_TS sh = _STAMP_TS s) by (subst sh; now destruct q).
      destruct e; try contradiction.
      * cbn [_worker_except]. rewrite poll_eq. now rewrite Hs, Hlive.
      * rewrite worker_except_unknown by reflexivity. cbn zeta. rewrite Hs, Hlive, Hreq.
        destruct (reply E r JNull); [|reflexivity]. now rewrite Hpub.
      * rewrite (worker_except_locked c E ppid msg r sh Hreq). cbn zeta. cbn [fst].
        now rewrite Hs, Hlive.
      * rewrite worker_except_unknown by reflexivity. cbn zeta. rewrite Hs, Hlive, Hreq.
        destruct (reply E r JNull); [|reflexivity]. now rewrite Hpub.
Qed.

(** the cache after a handler: as it was, or filled by a liveness check *)
Lemma worker_except_cache c E ppid e sh :
  _STAMP_TS (snd (_worker_except c E ppid e sh)) = _STAMP_TS sh
  \/ _STAMP_TS (snd (_worker_except c E ppid e sh)) = capture c (view E) (_STAMP_TS sh).
Proof.
  destruct e as [| |m|m|z].
  - cbn [_worker_except]. rewrite poll_eq. now right.
  - rewrite worker_except_unknown by reflexivity. cbn zeta.
    destruct (alive_now _ _ _ _); [destruct (req sh) as [r|]; [destruct (reply E r JNull)|]|];
      now right.
  - destruct (req sh) as [r|] eqn:Hr.
    + rewrite (worker_except_locked c E ppid m r sh Hr). now right.
    + cbn [_worker_except]. unfold bind, get. cbn. rewrite Hr. now left.
  - rewrite worker_except_unknown by reflexivity. cbn zeta.
    destruct (alive_now _ _ _ _); [destruct (req sh) as [r|]; [destruct (reply E r JNull)|]|];
      now right.
  - now left.
Qed.

Lemma worker_turn_cache c E worker_name q ppid s :
  _STAMP_TS (snd (_worker_turn c E worker_name q ppid s)) = _STAMP_TS s
  \/ _STAMP_TS (snd (_worker_turn c E worker_name q ppid s))
     = capture c (view E) (_STAMP_TS s).
Proof.
  rewrite worker_turn_split.
  destruct (worker_try_frame E worker_name q s) as (_ & _ & _ & _ & _ & _ & T7 & _).
  destruct (_worker_try E worker_name q s) as [[e|u] sh]; cbn [snd] in *.
  - rewrite <- T7. apply worker_except_cache.
  - now left.
Qed.

(** a view in which the parent lives and the marker, if there is one, has
    the time [t0], seen with a cache that is empty or holds [t0] *)
Lemma steady_view_is_alive c ppid t0 v cache :
  parent_present ppid v = true ->
  same_generation c t0 v = true ->
  cache = None \/ cache = Some t0 ->
  alive_now c v ppid cache = true
  /\ (capture c v cache = None \/ capture c v cache = Some t0).
Proof.
  intros Hp Hg [->| ->]; unfold alive_now, capture; rewrite Hp.
  - split; [reflexivity|]. unfold same_generation in Hg.
    destruct (marker_present c v); [|now left]. cbn in Hg.
    apply bool_decide_eq_true_1 in Hg. rewrite Hg. now right.
  - rewrite Hg. auto.
Qed.

(** X15: while the parent process lives and the marker keeps one
    generation [t0] (every view shows the marker absent or with the time
    [t0], and the cache is empty or holds [t0]), a worker whose publisher
    accepts what it is given survives every item: whatever the marshaller and
    the agent raise (short of [SystemExit], and of [FailedToLock] from the
    marshaller), the loop is still running after any number of turns, having
    taken one item for each turn. *)
Theorem contained_worker_keeps_running c worker_name q ppid sched s t0 :
  Forall contained sched ->
  Forall (fun E => parent_present ppid (view E) = true
                   /\ same_generation c t0 (view E) = true) sched ->
  _STAMP_TS s = None \/ _STAMP_TS s = Some t0 ->
  fst (_worker c worker_name q ppid sched s) = inr Running
  /\ queue_of q (snd (_worker c worker_name q ppid sched s))
     = drop (length sched) (queue_of q s).
Proof.
  intros Hc Hl Hs.
  assert (Hmain : fst (_worker_main c worker_name q ppid sched s) = inr Running
                  /\ queue_of q (snd (_worker_main c worker_name q ppid sched s))
                     = drop (length sched) (queue_of q s)).
  { revert s Hs. induction sched as [|E sched IH]; intros s Hs; cbn [_worker_main].
    - cbn. now rewrite drop_0.
    - inversion Hc as [|? ? HcE Hc']; inversion Hl as [|? ? [HpE HgE] Hl']; subst.
      destruct (steady_view_is_alive c ppid t0 (view E) (_STAMP_TS s) HpE HgE Hs)
        as [Hlive Hcap].
      pose proof (contained_turn_continues c E worker_name q ppid s HcE Hlive) as Ht.
      destruct (worker_turn_frame c E worker_name q ppid s) as (Hq & _).
      pose proof (worker_turn_cache c E worker_name q ppid s) as Hk.
      unfold bind.
      destruct (_worker_turn c E worker_name q ppid s) as [r s1].
      cbn in Ht, Hq, Hk. subst r.
      assert (Hs1 : _STAMP_TS s1 = None \/ _STAMP_TS s1 = Some t0)
        by (destruct Hk as [-> | ->]; assumption).
      destruct (IH Hc' Hl' s1 Hs1) as [K1 K2]. rewrite K1, K2, Hq, drop_drop.
      split; [reflexivity|]. f_equal. }
  destruct Hmain as [H1 H2]. unfold _worker.
  destruct (_worker_main c worker_name q ppid sched s) as [r s1]. cbn in H1, H2.
  subst r. auto.
Qed.

Lemma contained_worker_keeps_running_witness :
  fst (_worker Scenario.cfg "worker0" DataQ (Some "4711")
         [Scenario.executor_fails; Scenario.locked; Scenario.no_reply]
         (set_queue ["a"; "b"; "c"; "d"] boot))
  = inr Running.
Proof.
  apply (contained_worker_keeps_running Scenario.cfg "worker0" DataQ (Some "4711")
           [Scenario.executor_fails; Scenario.locked; Scenario.no_reply]
           (set_queue ["a"; "b"; "c"; "d"] boot) 10).
  - repeat (constructor;
              [split; [reflexivity|split; [discriminate|intros ? ? [= <-]; exact I]]|]).
    constructor.
  - repeat (constructor; [split; reflexivity|]). constructor.
  - now left.
Defined.

(** X16: when a worker leaves its loop by [break], the turns before the
    last one all went on, and the last turn is one whose liveness check,
    made with the cache the worker then had, failed. *)
Theorem worker_exit_means_lost_liveness c worker_name q ppid sched s :
  fst (_worker c worker_name q ppid sched s) = inr Exited ->
  exists before E after,
    sched = before ++ E :: after
    /\ fst (_worker_main c worker_name q ppid before s) = inr Running
    /\ fst (_worker_turn c E worker_name q ppid
              (snd (_worker_main c worker_name q ppid before s))) = inr Break
    /\ alive_now c (view E) ppid
         (_STAMP_TS (snd (_worker_main c worker_name q ppid before s))) = false.
Proof.
  intros H.
  assert (Hm : fst (_worker_main c worker_name q ppid sched s) = inr Exited).
  { unfold _worker in H.
    now destruct (_worker_main c worker_name q ppid sched s) as [[e|[]] s1]. }
  clear H. revert s Hm. induction sched as [|E sched IH]; intros s; cbn [_worker_main].
  - discriminate.
  - pose proof (worker_breaks_only_when_stale c E worker_name q ppid s) as Hb.
    unfold bind.
    destruct (_worker_turn c E worker_name q ppid s) as [[e|[]] s1] eqn:Ht; cbn in Hb |- *.
    + discriminate.
    + intros Hm. destruct (IH s1 Hm) as (before & E' & after & -> & H1 & H2 & H3).
      exists (E :: before), E', after. cbn [app _worker_main]. unfold bind. rewrite Ht.
      auto.
    + intros _. exists [], E, sched. cbn [app _worker_main ret snd fst].
      rewrite Ht. auto.
Qed.

Lemma worker_exit_means_lost_liveness_witness :
  let sched := [Scenario.locked; with_view deserted Scenario.locked] in
  exists before E after,
    sched = before ++ E :: after
    /\ fst (_worker_main Scenario.cfg "ping" PingQ (Some "4711") before Scenario.pending)
       = inr Running
    /\ fst (_worker_turn Scenario.cfg E "ping" PingQ (Some "4711")
              (snd (_worker_main Scenario.cfg "ping" PingQ (Some "4711") before
                      Scenario.pending))) = inr Break
    /\ alive_now Scenario.cfg (view E) (Some "4711")
         (_STAMP_TS (snd (_worker_main Scenario.cfg "ping" PingQ (Some "4711") before
                            Scenario.pending))) = false.
Proof.
  intros sched.
  apply (worker_exit_means_lost_liveness Scenario.cfg "ping" PingQ (Some "4711") sched
           Scenario.pending).
  reflexivity.
Defined.

(** X17: a generation that is cached is never overwritten: neither a run
    of the reader, however it ends, nor any number of turns of a worker
    changes a [_STAMP_TS] that is set. *)
Theorem cached_generation_is_never_overwritten c h a workers ppid post
    worker_name q sched s t0 :
  _STAMP_TS s = Some t0 ->
  _STAMP_TS (snd (_run c h a workers ppid post s)) = Some t0
  /\ _STAMP_TS (snd (_worker c worker_name q ppid sched s)) = Some t0.
Proof.
  intros Hs. split.
  - assert (Ha : (exists tok, a = Token tok) \/ forall tok, a <> Token tok)
      by (destruct a; [right; discriminate | left; eauto | right; discriminate]).
    destruct Ha as [[tok ->]|Ha']; [exact Hs|].
    destruct (_run_try c workers ppid post s) as [res sb] eqn:Hb.
    destruct (run_finish c h a workers ppid post s res sb Ha' Hb) as (s' & Hr & He).
    rewrite Hr. cbn [snd]. rewrite He. cbn.
    rewrite run_try_eq in Hb. destruct post as [e|r].
    + now injection Hb as <- <-.
    + destruct (bool_decide (status_code r = 201)).
      * pose proof (run_loop_frame c ppid (iter_lines r) (broken r) (loop_start workers s))
          as (_ & _ & _ & _ & _ & K).
        rewrite Hb in K. now apply K.
      * now injection Hb as <- <-.
  - now apply (worker_keeps_frame c worker_name q ppid sched s).
Qed.

Lemma cached_generation_is_never_overwritten_witness :
  _STAMP_TS (snd (_run Scenario.cfg Scenario.processes NoAuth 1 None
                    (inr Scenario.cut_off) (set_STAMP_TS (Some 7) boot)))
  = Some 7.
Proof.
  apply (cached_generation_is_never_overwritten Scenario.cfg Scenario.processes NoAuth 1 None
           (inr Scenario.cut_off) "ping" PingQ [] (set_STAMP_TS (Some 7) boot) 7).
  reflexivity.
Defined.

(** ** Progress replies: the other branches *)



(** X19: when [utils.reply] returns [None], for the request or for its
    parent, the update raises on the item assignment that follows: the
    publisher is not called and the state is left as it was. *)
Theorem progress_without_reply_raises E self_req self_parent msg progress data s :
  (reply E self_req data = None
   \/ exists d parent,
        reply E self_req data = Some d /\ self_parent = Some parent
        /\ reply E parent (JObj (set_progress d msg progress)) = None) ->
  update E self_req self_parent msg progress data s
  = (inl (Error "'NoneType' object does not support item assignment"), s).
Proof.
  intros [H|(d & parent & H1 & -> & H2)]; unfold update.
  - now rewrite H.
  - rewrite H1. cbn [mark_progress]. unfold bind at 1. cbn [ret]. now rewrite H2.
Qed.

Lemma progress_without_reply_raises_witness :
  update Scenario.no_reply Scenario.activate None (JStr "pulling image") (JNum 40) JNull boot
  = (inl (Error "'NoneType' object does not support item assignment"), boot).
Proof.
  apply (progress_without_reply_raises Scenario.no_reply Scenario.activate None
           (JStr "pulling image") (JNum 40) JNull boot).
  now left.
Defined.

(** ** The container clean-up script *)

Lemma sweep_never_removes show verb act l i :
  ~ In (Remove i) (snd (sweep show verb Kill act l)).
Proof.
  induction l as [|ct l IH]; cbn [sweep]; [now intros []|].
  destruct (ct !! "Id") as [j|]; [|now intros []].
  destruct (act j).
  - cbn. intros [H|[H|[]]]; discriminate.
  - destruct (sweep show verb Kill act l) as [r calls]. cbn in *.
    intros [H|[H|H]]; [discriminate|discriminate|auto].
Qed.

Lemma sweep_done show verb call act l calls :
  sweep show verb call act l = (inr tt, calls) ->
  Forall (fun ct => is_Some (ct !! "Id") /\ act (id_of ct) = None
                    /\ In (call (id_of ct)) calls) l.
Proof.
  revert calls. induction l as [|ct l IH]; intros calls; cbn [sweep]; [constructor|].
  unfold id_of. destruct (ct !! "Id") as [j|] eqn:Hj; [|discriminate].
  destruct (act j) eqn:Ha; [discriminate|].
  destruct (sweep show verb call act l) as [r calls'] eqn:Hs.
  intros [= -> <-]. constructor.
  - rewrite Hj. cbn. repeat split; eauto.
  - eapply Forall_impl; [apply IH; reflexivity|].
    intros x (H1 & H2 & H3). cbn. auto.
Qed.

(** X20: [delete_all] removes nothing before it is done with the kills:
    if any container is removed, then every container of the first listing
    had an [Id], its [kill] returned, and the call is on record. *)
Theorem nothing_is_removed_before_all_are_killed client i :
  In (Remove i) (snd (delete_all client)) ->
  Forall (fun ct => is_Some (ct !! "Id") /\ kill client (id_of ct) = None
                    /\ In (Kill (id_of ct)) (snd (delete_all client)))
    (containers client).
Proof.
  unfold delete_all.
  pose proof (sweep_never_removes (show client) "Killing " (kill client)
                (containers client) i) as Hn.
  destruct (sweep (show client) "Killing " Kill (kill client) (containers client))
    as [[e|[]] calls] eqn:Hk; cbn [snd] in *; [contradiction|].
  destruct (sweep (show client) "Removing " Remove (remove_container client)
              (containers_all client)) as [r calls']. cbn [snd]. intros _.
  eapply Forall_impl; [exact (sweep_done _ _ _ _ _ _ Hk)|].
  intros ct (H1 & H2 & H3). repeat split; auto. apply in_or_app. now left.
Qed.

Lemma nothing_is_removed_before_all_are_killed_witness :
  let one : gmap string json := <["Id" := JStr "4f1c"]> ∅ in
  let client := {| containers := [one]; containers_all := [one];
                   kill := fun _ => None; remove_container := fun _ => None;
                   show := fun _ => "4f1c" |} in
  snd (delete_all client)
  = [Print "Killing 4f1c"; Kill (JStr "4f1c"); Print "Removing 4f1c"; Remove (JStr "4f1c")]
  /\ Forall (fun ct => is_Some (ct !! "Id") /\ kill client (id_of ct) = None
                       /\ In (Kill (id_of ct)) (snd (delete_all client)))
       (containers client).
Proof.
  intros one client. split; [reflexivity|].
  apply (nothing_is_removed_before_all_are_killed client (JStr "4f1c")).
  vm_compute. auto.
Defined.

(** ** Dispatcher: how a run ends *)




